(** * Streaming anomaly detection (EWMA level and spread): a model of [main.py]

    The development embeds [validate_params], [anomaly_detection],
    [data_stream] and the animation callback of [main]: the threading of the
    detector state, the three lists kept for the plot and the axis ranges.

    Numbers.  A Python float is modelled as an ideal real extended with the
    three non-finite floating values ([nan], [inf], [-inf]).  Arithmetic on
    finite values is exact real arithmetic, rounding being left out, with
    two exceptions, both in [x ** 2], the one operation of the detector
    whose result leaves the range of binary64 on ordinary arguments: a
    square that is too large raises [OverflowError], as [**] does on Python
    floats, and a square that is too small is 0.  Arithmetic that involves
    a non-finite operand follows IEEE 754 ([inf - inf] and [0 * inf] are
    [nan], every comparison with [nan] is false).  The arguments [ewma],
    [ewma_std], [beta] and [threshold_multiplier] are taken to be Python
    floats; [value] may be any object, since the code tests its type: a
    Python float, a Python [int], or something else.  On a
    [numpy.float64], the type of the samples in [main], the operator [**]
    gives [inf] where it raises on a Python float; the theorem on the
    generated samples is stated for samples and states below 2^500, on
    which no square overflows.  The spread that a call returns is a
    [numpy.float64] as well, but it is the root of a finite variance, and
    its square does not overflow.

    Effects.  [print] appends to standard output, which is modelled as the
    list of messages a call writes.  [time.time()] is read only to build the
    text of one message; the reading is an explicit argument of the model.
    [raise] and [try ... except Exception] are modelled with a result type.
    The random numbers that [data_stream] draws are an explicit input, and
    the plot is the record of what the callback last set on it. *)

From Stdlib Require Import Reals Lra Lia List Bool ZArith.
Import ListNotations.

Open Scope R_scope.

(** ** Numbers *)

Module Num.

Inductive num : Type :=
| Fin (r : R)
| PInf
| NInf
| NaN.

Definition Rltb (a b : R) : bool := if Rlt_dec a b then true else false.
Definition Rleb (a b : R) : bool := if Rle_dec a b then true else false.

(** [x < y] *)
Definition ltb (x y : num) : bool :=
  match x, y with
  | Fin a, Fin b => Rltb a b
  | Fin _, PInf => true
  | NInf, Fin _ => true
  | NInf, PInf => true
  | _, _ => false
  end.

(** [x <= y] *)
Definition leb (x y : num) : bool :=
  match x, y with
  | Fin a, Fin b => Rleb a b
  | Fin _, PInf => true
  | NInf, Fin _ => true
  | NInf, PInf => true
  | NInf, NInf => true
  | PInf, PInf => true
  | _, _ => false
  end.

(** [x > y] *)
Definition gtb (x y : num) : bool := ltb y x.

Definition neg (x : num) : num :=
  match x with
  | Fin a => Fin (- a)
  | PInf => NInf
  | NInf => PInf
  | NaN => NaN
  end.

Definition add (x y : num) : num :=
  match x, y with
  | NaN, _ | _, NaN => NaN
  | Fin a, Fin b => Fin (a + b)
  | PInf, NInf | NInf, PInf => NaN
  | PInf, _ | _, PInf => PInf
  | NInf, _ | _, NInf => NInf
  end.

Definition sub (x y : num) : num := add x (neg y).

(** An infinity scaled by a finite factor: the sign follows the factor and
    a zero factor gives [nan]. *)
Definition scale_inf (positive : bool) (a : R) : num :=
  if Rltb 0 a then (if positive then PInf else NInf)
  else if Rltb a 0 then (if positive then NInf else PInf)
  else NaN.

Definition mul (x y : num) : num :=
  match x, y with
  | NaN, _ | _, NaN => NaN
  | Fin a, Fin b => Fin (a * b)
  | PInf, Fin a | Fin a, PInf => scale_inf true a
  | NInf, Fin a | Fin a, NInf => scale_inf false a
  | PInf, PInf | NInf, NInf => PInf
  | PInf, NInf | NInf, PInf => NInf
  end.

(** The range of binary64.  An exact result of magnitude [overflow_at] or
    more rounds to an infinity, a result of magnitude [underflow_at] or less
    rounds to 0, and [least_normal] is the least positive normal number. *)
Definition overflow_at : R := IZR (2 ^ 1024 - 2 ^ 970).
Definition underflow_at : R := / IZR (2 ^ 1075).
Definition least_normal : R := / IZR (2 ^ 1022).

(** A non-negative exact result that underflows is 0. *)
Definition flush (t : R) : R := if Rleb t underflow_at then 0 else t.

(** [np.sqrt(x)]: [nan] below zero. *)
Definition sqrt (x : num) : num :=
  match x with
  | Fin a => if Rltb a 0 then NaN else Fin (R_sqrt.sqrt a)
  | PInf => PInf
  | NInf | NaN => NaN
  end.

(** [abs(x)] *)
Definition abs (x : num) : num :=
  match x with
  | Fin a => Fin (Rabs a)
  | PInf | NInf => PInf
  | NaN => NaN
  end.

(** [np.isnan(x)] and [np.isinf(x)] *)
Definition isnan (x : num) : bool :=
  match x with NaN => true | _ => false end.

Definition isinf (x : num) : bool :=
  match x with PInf | NInf => true | _ => false end.

End Num.

Import Num.

(** ** Python values, exceptions and output *)

(** The argument [value] is the only one whose type the code inspects
    ([isinstance(value, (int, float))]): it is a [float] ([PyNum]), an
    [int] ([PyInt]), or an object that is neither ([PyOther]). *)
Inductive pyobj : Type :=
| PyNum (x : num)
| PyInt (z : Z)
| PyOther.

(** The exceptions that the body of [anomaly_detection] can raise: the four
    [ValueError]s of [validate_params], by the text they carry, the
    [TypeError] of [np.isnan] and the [OverflowError] of [**]. *)
Inductive exn : Type :=
| InvalidDataValue (value : pyobj)
| InvalidBeta (beta : num)
| ThresholdNotPositive (threshold_multiplier : num)
| InvalidStd (ewma_std : num)
| IsnanTypeError (value : pyobj)
| PowOverflowError.

(** The names the specification gives to the failures of the validation;
    it has none for the other two exceptions. *)
Inductive error_kind : Type := InvalidInput | InvalidConfig | Unnamed.

Definition kind_of (e : exn) : error_kind :=
  match e with
  | InvalidDataValue _ => InvalidInput
  | InvalidBeta _ | ThresholdNotPositive _ | InvalidStd _ => InvalidConfig
  | IsnanTypeError _ | PowOverflowError => Unnamed
  end.

(** A computation that returns or raises. *)
Inductive result (A : Type) : Type :=
| Return (a : A)
| Raise (e : exn).
Arguments Return {A} a.
Arguments Raise {A} e.

Definition bind {A B : Type} (m : result A) (k : A -> result B) : result B :=
  match m with
  | Return a => k a
  | Raise e => Raise e
  end.

Notation "m ;; k" := (bind m (fun _ => k))
  (at level 61, right associativity).

(** [if c: raise e] *)
Definition raise_if (c : bool) (e : exn) : result unit :=
  if c then Raise e else Return tt.

(** A line written by [print]. *)
Inductive message : Type :=
| AnomalyDetected (time : R) (value ewma_new threshold : num)
| ErrorInDetection (e : exn).

(** ** [validate_params] *)

(** The Python integers that numpy converts to a machine integer: those of
    [int64] and of [uint64].  On any other, [np.isnan] raises
    [TypeError]. *)
Definition np_fits (z : Z) : bool :=
  ((- 2 ^ 63 <=? z) && (z <? 2 ^ 64))%Z.

(** [not isinstance(value, (int, float)) or np.isnan(value) or np.isinf(value)]:
    the first test decides for an object that is no number, and an integer
    is neither [nan] nor infinite once [np.isnan] has taken it. *)
Definition bad_value (value : pyobj) : result bool :=
  match value with
  | PyOther => Return true
  | PyInt z => if np_fits z then Return false else Raise (IsnanTypeError value)
  | PyNum x => Return (isnan x || isinf x)
  end.

Definition validate_params (value : pyobj) (ewma ewma_std beta threshold_multiplier : num)
  : result unit :=
  bind (bad_value value) (fun bad => raise_if bad (InvalidDataValue value)) ;;
  raise_if (negb (ltb (Fin 0) beta && ltb beta (Fin 1))) (InvalidBeta beta) ;;
  raise_if (leb threshold_multiplier (Fin 0)) (ThresholdNotPositive threshold_multiplier) ;;
  raise_if (ltb ewma_std (Fin 0)) (InvalidStd ewma_std).

(** ** [anomaly_detection] *)

(** What the function hands back to its caller: the triple
    [(ewma, ewma_std, is_anomaly)]. *)
Definition triple : Type := (num * num * bool)%type.

(** The number behind a validated [value]. *)
Definition num_of (value : pyobj) : num :=
  match value with
  | PyNum x => x
  | PyInt z => Fin (IZR z)
  | PyOther => NaN
  end.

(** [x ** 2] on a Python float: [OverflowError] when the square leaves the
    range, 0 when it underflows. *)
Definition float_pow2 (x : num) : result num :=
  match x with
  | Fin a =>
      if Rleb overflow_at (a ^ 2) then Raise PowOverflowError
      else Return (Fin (flush (a ^ 2)))
  | PInf | NInf => Return PInf
  | NaN => Return NaN
  end.

(** The variance as the call computes it, with squares that underflow. *)
Definition computed_variance (beta deviation spread : R) : R :=
  beta * flush (deviation ^ 2) + (1 - beta) * flush (spread ^ 2).

(** The body of the [try] block.  [now] is the reading of [time.time()]. *)
Definition detection_body (now : R) (value : pyobj)
    (ewma ewma_std beta threshold_multiplier : num)
  : result (triple * list message) :=
  validate_params value ewma ewma_std beta threshold_multiplier ;;
  let v := num_of value in
  let ewma_new := add (mul beta v) (mul (sub (Fin 1) beta) ewma) in
  bind (float_pow2 (sub v ewma_new)) (fun deviation2 =>
  bind (float_pow2 ewma_std) (fun ewma_std2 =>
  let variance_new :=
    add (mul beta deviation2) (mul (sub (Fin 1) beta) ewma_std2) in
  let ewma_std_new := Num.sqrt variance_new in
  let threshold := mul threshold_multiplier ewma_std_new in
  let is_anomaly := gtb (abs (sub v ewma_new)) threshold in
  Return ((ewma_new, ewma_std_new, is_anomaly),
          if is_anomaly then [AnomalyDetected now v ewma_new threshold] else []))).

(** The whole function: the body under [except Exception]. *)
Definition anomaly_detection (now : R) (value : pyobj)
    (ewma ewma_std beta threshold_multiplier : num)
  : result (triple * list message) :=
  match detection_body now value ewma ewma_std beta threshold_multiplier with
  | Return r => Return r
  | Raise e => Return ((ewma, ewma_std, false), [ErrorInDetection e])
  end.

(** ** The detector state and its update in [main]

    The animation callback keeps [ewma] and [ewma_std] in the enclosing scope
    and overwrites both with what [anomaly_detection] returns. *)

Record detector_state : Type := mkState { ewma : num; ewma_std : num }.

(** [ewma, ewma_std, is_anomaly = anomaly_detection(value, ewma, ewma_std, beta, threshold_multiplier)] *)
Definition update (beta threshold_multiplier : num) (now : R)
    (st : detector_state) (value : pyobj)
  : result (detector_state * bool * list message) :=
  bind (anomaly_detection now value (ewma st) (ewma_std st) beta threshold_multiplier)
       (fun r => let '((e, s, is_anomaly), out) := r in
                 Return (mkState e s, is_anomaly, out)).

(** The callback of [main] fixes [beta=0.3] and [threshold_multiplier=1.5]. *)
Definition main_update : R -> detector_state -> pyobj
  -> result (detector_state * bool * list message) :=
  update (Fin (3 / 10)) (Fin (15 / 10)).

(** The state [main] starts from: [ewma, ewma_std = 0, 1]. *)
Definition initial_state : detector_state := mkState (Fin 0) (Fin 1).

(** The state after the samples of a stream have been consumed one per
    frame; [clock] gives the reading of [time.time()] in each frame. *)
Fixpoint run (beta threshold_multiplier : num) (clock : nat -> R) (frame : nat)
    (samples : list pyobj) (st : detector_state) : result detector_state :=
  match samples with
  | [] => Return st
  | value :: rest =>
      bind (update beta threshold_multiplier (clock frame) st value)
           (fun r => run beta threshold_multiplier clock (S frame) rest (fst (fst r)))
  end.

(** What reaches the caller of a call: the returned triple, if it returns. *)
Definition returned {A B : Type} (r : result (A * B)) : option A :=
  match r with
  | Return (a, _) => Some a
  | Raise _ => None
  end.

(** What a call writes to standard output. *)
Definition printed {A : Type} (r : result (A * list message)) : list message :=
  match r with
  | Return (_, out) => out
  | Raise _ => []
  end.

(** A call reports a failure to its caller when it raises. The triple of
    numbers and a flag that [anomaly_detection] returns has no component
    that could carry an error. *)
Definition reports_failure {A : Type} (r : result A) : Prop :=
  exists e, r = Raise e.

(** ** The calls the specification calls invalid *)

(** A sample that is a number but not a finite one. *)
Definition non_finite (value : pyobj) : Prop :=
  value = PyNum NaN \/ value = PyNum PInf \/ value = PyNum NInf.

(** A call whose sample is not finite, or whose configuration is invalid:
    beta outside (0,1), multiplier at most 0, or a negative spread. *)
Inductive invalid_call (value : pyobj) (ewma_std beta threshold_multiplier : num)
  : Prop :=
| invalid_sample :
    non_finite value ->
    invalid_call value ewma_std beta threshold_multiplier
| invalid_beta (b : R) :
    beta = Fin b -> ~ (0 < b < 1) ->
    invalid_call value ewma_std beta threshold_multiplier
| invalid_multiplier (c : R) :
    threshold_multiplier = Fin c -> c <= 0 ->
    invalid_call value ewma_std beta threshold_multiplier
| invalid_spread (s : R) :
    ewma_std = Fin s -> s < 0 ->
    invalid_call value ewma_std beta threshold_multiplier.

(** The invariant of the detector state: a finite level and a finite,
    non-negative spread. *)
Definition state_ok (st : detector_state) : Prop :=
  exists level spread : R,
    st = mkState (Fin level) (Fin spread) /\ 0 <= spread.

(** ** Closed forms for a constant stream

    The level after [n] samples [v] fed to a detector that started at level
    [l0] and spread [s0] with smoothing [b], and the squared spread that
    exact squares would give. *)
Definition level_after (v l0 b : R) (n : nat) : R :=
  v + (1 - b) ^ n * (l0 - v).

Definition variance_after (v l0 s0 b : R) (n : nat) : R :=
  (1 - b) ^ n * (s0 ^ 2 + (1 - b) * (1 - (1 - b) ^ n) * (l0 - v) ^ 2).

(** The spread after [n] samples, as the calls compute it: the square of
    a deviation that has become very small underflows. *)
Fixpoint computed_spread_after (v l0 s0 b : R) (n : nat) : R :=
  match n with
  | O => s0
  | S m =>
      R_sqrt.sqrt (computed_variance b (v - level_after v l0 b n)
                                     (computed_spread_after v l0 s0 b m))
  end.

(** ** The default arguments

    [def anomaly_detection(value, ewma, ewma_std, beta=0.3, threshold_multiplier=2)]:
    a call that passes the sample and the state only. *)
Definition anomaly_detection_default (now : R) (value : pyobj) (ewma ewma_std : num)
  : result (triple * list message) :=
  anomaly_detection now value ewma ewma_std (Fin (3 / 10)) (Fin 2).

(** ** [data_stream]

    The generator draws three random numbers per sample: the noise
    ([np.random.normal(0, 1)]), the number compared with 0.05
    ([random.random()]) and the element picked from [[20, -20]]
    ([random.choice]).  The draws are an explicit input of the model. *)
Record draws : Type := mkDraws { noise : R; coin : R; pick_first : bool }.

(** [10 * np.sin(2 * np.pi * t / 50)] *)
Definition seasonal (t : nat) : R := 10 * sin (2 * PI * INR t / 50).

(** [0.05 * t] *)
Definition trend (t : nat) : R := 5 / 100 * INR t.

(** [random.choice([20, -20])] *)
Definition spike (d : draws) : R := if pick_first d then 20 else -20.

(** The value yielded at time index [t]. *)
Definition stream_value (t : nat) (d : draws) : R :=
  let value := seasonal t + trend t + noise d in
  if Rltb (coin d) (5 / 100) then value + spike d else value.

(** The generator: [t] starts at 0 and grows by one after each [yield], so
    that the [n]-th value (from 0) is the one of time index [n]. *)
Definition data_stream (rnd : nat -> draws) (n : nat) : num :=
  Fin (stream_value n (rnd n)).

(** ** The animation callback of [main]

    [times], [values] and [anomalies] are the three lists of the enclosing
    scope. *)
Record display : Type :=
  mkDisplay { times : list Z; values : list num; anomalies : list (Z * num) }.

(** What the callback sets on the plot: the data of the line, the offsets of
    the scatter plot and the two axis ranges. *)
Record axes : Type :=
  mkAxes { line_data : list Z * list num;
           offsets : list (Z * num);
           xlim : Z * Z;
           ylim : num * num }.

(** A line of the console: one of the detector, or [Data stream ended.] *)
Inductive console : Type :=
| Detector (m : message)
| DataStreamEnded.

(** [min(l)] and [max(l)]: the first element is kept until a later one
    compares strictly below (above) it; an empty list is an error. *)
Definition py_min (l : list num) : option num :=
  match l with
  | [] => None
  | x :: rest => Some (fold_left (fun m y => if ltb y m then y else m) rest x)
  end.

Definition py_max (l : list num) : option num :=
  match l with
  | [] => None
  | x :: rest => Some (fold_left (fun m y => if gtb y m then y else m) rest x)
  end.

Record frame_result : Type :=
  mkFrame { new_state : detector_state;
            new_display : display;
            console_out : list console;
            drawn : option axes }.

(** [ax.set_ylim(bottom, top)] raises [ValueError] when a limit is [nan] or
    infinite. *)
Definition limits_accepted (bottom top : num) : bool :=
  match bottom, top with
  | Fin _, Fin _ => true
  | _, _ => false
  end.

(** [update(frame)].  [next] is what [next(data_gen)] gives: a value, or
    nothing when the generator has stopped.  The result is [None] when an
    exception leaves the callback: [min] or [max] of an empty list, or the
    [ValueError] of [ax.set_ylim]. *)
Definition animation_update (now : R) (frame : Z) (next : option num)
    (st : detector_state) (d : display) : option frame_result :=
  match next with
  | None => Some (mkFrame st d [DataStreamEnded] None)
  | Some value =>
      match main_update now st (PyNum value) with
      | Raise _ => None
      | Return (st', is_anomaly, out) =>
          let times1 := times d ++ [frame] in
          let values1 := values d ++ [value] in
          let long := (100 <? length times1)%nat in
          let times2 := if long then tl times1 else times1 in
          let values2 := if long then tl values1 else values1 in
          let anomalies1 :=
            if is_anomaly then anomalies d ++ [(frame, value)] else anomalies d in
          let anomalies2 :=
            if is_anomaly && (100 <? length anomalies1)%nat
            then tl anomalies1 else anomalies1 in
          let shown := values2 ++ map snd anomalies2 in
          match py_min shown, py_max shown with
          | Some ymin, Some ymax =>
              if limits_accepted (sub ymin (Fin 5)) (add ymax (Fin 5))
              then
                Some (mkFrame st' (mkDisplay times2 values2 anomalies2)
                              (map Detector out)
                              (Some (mkAxes (times2, values2) anomalies2
                                            (Z.max 0 (frame - 100), (frame + 10)%Z)
                                            (sub ymin (Fin 5), add ymax (Fin 5)))))
              else None
          | _, _ => None
          end
      end
  end.

(** The animation: the callback is called with the frames [frame],
    [frame + 1], ... and takes one sample of the stream in each.  The
    result is the state, the lists and what was last set on the plot
    ([shown] before the first frame). *)
Fixpoint animate (clock : Z -> R) (frame : Z) (samples : list num)
    (st : detector_state) (d : display) (shown : option axes)
  : option (detector_state * display * option axes) :=
  match samples with
  | [] => Some (st, d, shown)
  | value :: rest =>
      match animation_update (clock frame) frame (Some value) st d with
      | None => None
      | Some r =>
          animate clock (frame + 1) rest (new_state r) (new_display r) (drawn r)
      end
  end.

(** The frames [frame], [frame + 1], ..., [n] of them. *)
Definition frames_from (frame : Z) (n : nat) : list Z :=
  map (fun i => (frame + Z.of_nat i)%Z) (seq 0 n).

(** A list of numbers that are all finite. *)
Definition all_finite (l : list num) : Prop :=
  Forall (fun x => exists r, x = Fin r) l.

(** The lists as [main] creates them. *)
Definition empty_display : display := mkDisplay [] [] [].

(** The lengths the callback maintains. *)
Definition display_ok (d : display) : Prop :=
  length (times d) = length (values d)
  /\ (length (times d) <= 100)%nat
  /\ (length (anomalies d) <= 100)%nat.

(** All that the lists hold for the plot is finite. *)
Definition display_finite (d : display) : Prop :=
  all_finite (values d) /\ all_finite (map snd (anomalies d)).

(** ** Calls within the range of binary64 *)

(** An exact non-negative result that is 0 or rounds to a normal number. *)
Definition normal (t : R) : Prop :=
  t = 0 \/ (least_normal <= t < overflow_at).

(** A call is in range when the two squares that it takes and the two
    terms of the variance are 0 or normal numbers: nothing overflows and
    nothing underflows. *)
Definition in_range (beta deviation spread : R) : Prop :=
  normal (deviation ^ 2)
  /\ normal (beta * deviation ^ 2)
  /\ normal (spread ^ 2)
  /\ normal ((1 - beta) * spread ^ 2).

(** A finite sample: a float that is finite, or an integer of [int64]. *)
Inductive finite_sample : pyobj -> R -> Prop :=
| finite_float (v : R) : finite_sample (PyNum (Fin v)) v
| finite_int (z : Z) :
    (- 2 ^ 63 <= z < 2 ^ 63)%Z -> finite_sample (PyInt z) (IZR z).

(** The samples, multipliers and spreads that the validation lets through:
    a finite float or an integer that numpy converts; a multiplier that is
    not at most 0; a spread that is not below 0. *)
Definition sample_accepted (value : pyobj) : Prop :=
  match value with
  | PyNum (Fin _) => True
  | PyInt z => (- 2 ^ 63 <= z < 2 ^ 64)%Z
  | _ => False
  end.

Definition multiplier_accepted (k : num) : Prop :=
  match k with
  | Fin c => 0 < c
  | PInf | NaN => True
  | NInf => False
  end.

Definition spread_accepted (s : num) : Prop :=
  match s with
  | Fin x => 0 <= x
  | PInf | NaN => True
  | NInf => False
  end.

Definition num_not_finite (x : num) : Prop :=
  x = NaN \/ x = PInf \/ x = NInf.

(** ** Bounded states

    A bound on the samples, the level and the spread under which no square
    that the detector takes overflows: 2^500. *)
Definition magnitude_bound : R := IZR (2 ^ 500).

Definition state_bounded (st : detector_state) : Prop :=
  exists level spread : R,
    st = mkState (Fin level) (Fin spread)
    /\ Rabs level <= magnitude_bound
    /\ 0 <= spread <= 2 * magnitude_bound.

(** [value - ewma_new], and the squares that raise [OverflowError]. *)
Definition deviation_of (value : pyobj) (level beta : num) : num :=
  sub (num_of value)
      (add (mul beta (num_of value)) (mul (sub (Fin 1) beta) level)).

Definition square_overflows (x : num) : Prop :=
  float_pow2 x = Raise PowOverflowError.

(** ** Basic facts on the comparisons *)

Lemma Rltb_true (a b : R) : Rltb a b = true <-> a < b.
Proof. unfold Rltb; destruct (Rlt_dec a b); split; intros; try easy. Qed.

Lemma Rltb_false (a b : R) : Rltb a b = false <-> b <= a.
Proof.
  unfold Rltb; destruct (Rlt_dec a b); split; intros; try easy; lra.
Qed.

Lemma Rleb_true (a b : R) : Rleb a b = true <-> a <= b.
Proof. unfold Rleb; destruct (Rle_dec a b); split; intros; try easy. Qed.

Lemma Rleb_false (a b : R) : Rleb a b = false <-> b < a.
Proof.
  unfold Rleb; destruct (Rle_dec a b); split; intros; try easy; lra.
Qed.

(** Replaces a comparison of the goal by its value when linear arithmetic
    settles it. *)
Ltac settle_comparison :=
  match goal with
  | |- context [Rltb ?a ?b] =>
      first [ rewrite (proj2 (Rltb_true a b)) by lra
            | rewrite (proj2 (Rltb_false a b)) by lra ]
  | |- context [Rleb ?a ?b] =>
      first [ rewrite (proj2 (Rleb_true a b)) by lra
            | rewrite (proj2 (Rleb_false a b)) by lra ]
  end.

(** ** The range of binary64 *)

(** Writes the powers of 2 in the goal and the hypotheses as numerals. *)
Ltac literal_powers :=
  repeat match goal with
  | |- context [IZR ?z] =>
      lazymatch z with
      | context [Z.pow _ _] => let n := eval vm_compute in z in change z with n
      end
  | H : context [IZR ?z] |- _ =>
      lazymatch z with
      | context [Z.pow _ _] => let n := eval vm_compute in z in change z with n in H
      end
  end.

(** Linear arithmetic with the bounds of the range written out. *)
Ltac range_lra :=
  unfold normal, overflow_at, underflow_at, least_normal in *;
  literal_powers; lra.

Lemma range_order :
  0 < underflow_at /\ underflow_at < least_normal
  /\ least_normal < 1 /\ 1 < overflow_at.
Proof. repeat split; range_lra. Qed.

Lemma flush_nonneg (t : R) : 0 <= t -> 0 <= flush t.
Proof. intros H. unfold flush. destruct (Rleb t underflow_at); lra. Qed.

Lemma flush_le (t : R) : 0 <= t -> flush t <= t.
Proof. intros H. unfold flush. destruct (Rleb t underflow_at); lra. Qed.

Lemma flush_normal (t : R) : normal t -> flush t = t.
Proof.
  pose proof range_order as (H0 & H1 & _).
  intros [-> | [Hlo Hhi]]; unfold flush.
  - destruct (Rleb 0 underflow_at); reflexivity.
  - rewrite (proj2 (Rleb_false t underflow_at)); [reflexivity | lra].
Qed.

Lemma normal_no_overflow (t : R) : normal t -> Rleb overflow_at t = false.
Proof.
  pose proof range_order as (_ & _ & _ & H1).
  intros [-> | [Hlo Hhi]]; apply Rleb_false; lra.
Qed.

Lemma in_range_variance (b d s : R) :
  in_range b d s ->
  Rleb overflow_at (d ^ 2) = false
  /\ Rleb overflow_at (s ^ 2) = false
  /\ computed_variance b d s = b * d ^ 2 + (1 - b) * s ^ 2.
Proof.
  intros (Hd & _ & Hs & _). unfold computed_variance.
  rewrite (flush_normal _ Hd), (flush_normal _ Hs).
  repeat split; apply normal_no_overflow; assumption.
Qed.

(** ** What [validate_params] accepts and rejects *)

Lemma np_fits_int64 (z : Z) : (- 2 ^ 63 <= z < 2 ^ 63)%Z -> np_fits z = true.
Proof.
  intros H. unfold np_fits. apply andb_true_iff. split.
  - apply Z.leb_le. lia.
  - apply Z.ltb_lt. lia.
Qed.

Lemma bad_value_finite_sample (value : pyobj) (v : R) :
  finite_sample value v -> bad_value value = Return false /\ num_of value = Fin v.
Proof.
  intros [v' | z Hz]; cbn [bad_value num_of isnan isinf orb].
  - split; reflexivity.
  - rewrite (np_fits_int64 z Hz). split; reflexivity.
Qed.

Lemma validate_params_sample (value : pyobj) (l s b k : R) :
  bad_value value = Return false ->
  0 < b < 1 -> 0 < k -> 0 <= s ->
  validate_params value (Fin l) (Fin s) (Fin b) (Fin k) = Return tt.
Proof.
  intros Hv [Hb0 Hb1] Hk Hs. unfold validate_params.
  rewrite Hv. cbn.
  do 2 settle_comparison. cbn.
  settle_comparison. cbn.
  settle_comparison. reflexivity.
Qed.

Lemma validate_params_finite (v l s b k : R) :
  0 < b < 1 -> 0 < k -> 0 <= s ->
  validate_params (PyNum (Fin v)) (Fin l) (Fin s) (Fin b) (Fin k) = Return tt.
Proof. apply validate_params_sample. reflexivity. Qed.

(** The comparisons with [nan] being false, a [nan] multiplier or spread
    passes the validation. *)
Lemma validate_params_nan_passes (v l b : R) :
  0 < b < 1 ->
  validate_params (PyNum (Fin v)) (Fin l) NaN (Fin b) NaN = Return tt.
Proof.
  intros [Hb0 Hb1]. unfold validate_params. cbn.
  do 2 settle_comparison. reflexivity.
Qed.

(** The variance of a valid call is a convex combination of two squares. *)
Lemma variance_nonneg (b d s : R) :
  0 < b < 1 -> 0 <= b * d ^ 2 + (1 - b) * s ^ 2.
Proof.
  intros [Hb0 Hb1].
  assert (0 <= d ^ 2) by apply pow2_ge_0.
  assert (0 <= s ^ 2) by apply pow2_ge_0.
  nra.
Qed.

Lemma computed_variance_nonneg (b d s : R) :
  0 < b < 1 -> 0 <= computed_variance b d s.
Proof.
  intros [Hb0 Hb1]. unfold computed_variance.
  assert (0 <= flush (d ^ 2)) by apply flush_nonneg, pow2_ge_0.
  assert (0 <= flush (s ^ 2)) by apply flush_nonneg, pow2_ge_0.
  nra.
Qed.

Lemma computed_variance_le (b d s : R) :
  0 < b < 1 -> computed_variance b d s <= b * d ^ 2 + (1 - b) * s ^ 2.
Proof.
  intros [Hb0 Hb1]. unfold computed_variance.
  assert (flush (d ^ 2) <= d ^ 2) by apply flush_le, pow2_ge_0.
  assert (flush (s ^ 2) <= s ^ 2) by apply flush_le, pow2_ge_0.
  nra.
Qed.

Section FiniteCall.

Variables (now v l s b k : R) (value : pyobj).
Hypothesis sample_accepted : bad_value value = Return false.
Hypothesis sample_number : num_of value = Fin v.
Hypothesis beta_valid : 0 < b < 1.
Hypothesis multiplier_valid : 0 < k.
Hypothesis spread_valid : 0 <= s.

Let level' : R := b * v + (1 - b) * l.
Let deviation : R := v - level'.
Let spread' : R := R_sqrt.sqrt (computed_variance b deviation s).
Let threshold : R := k * spread'.
Let flag : bool := Rltb threshold (Rabs deviation).

(** The [try] block on finite arguments: it raises when a square
    overflows, and otherwise returns what the steps of the code give. *)
Lemma detection_body_cases :
  detection_body now value (Fin l) (Fin s) (Fin b) (Fin k)
  = if Rleb overflow_at (deviation ^ 2) || Rleb overflow_at (s ^ 2)
    then Raise PowOverflowError
    else Return ((Fin level', Fin spread', flag),
                 if flag
                 then [AnomalyDetected now (Fin v) (Fin level') (Fin threshold)]
                 else []).
Proof.
  unfold detection_body.
  rewrite validate_params_sample by assumption.
  rewrite sample_number.
  cbn [bind mul sub neg add].
  replace (b * v + (1 + - b) * l) with level' by (unfold level'; ring).
  replace (v + - level') with deviation by (unfold deviation; ring).
  cbn [float_pow2].
  destruct (Rleb overflow_at (deviation ^ 2)); cbn [orb bind]; [reflexivity|].
  destruct (Rleb overflow_at (s ^ 2)); cbn [bind]; [reflexivity|].
  cbn [mul add].
  replace (b * flush (deviation ^ 2) + (1 + - b) * flush (s ^ 2))
    with (computed_variance b deviation s) by (unfold computed_variance; ring).
  cbn [Num.sqrt].
  rewrite (proj2 (Rltb_false (computed_variance b deviation s) 0))
    by (apply computed_variance_nonneg; assumption).
  reflexivity.
Qed.

Lemma anomaly_detection_cases :
  anomaly_detection now value (Fin l) (Fin s) (Fin b) (Fin k)
  = if Rleb overflow_at (deviation ^ 2) || Rleb overflow_at (s ^ 2)
    then Return ((Fin l, Fin s, false), [ErrorInDetection PowOverflowError])
    else Return ((Fin level', Fin spread', flag),
                 if flag
                 then [AnomalyDetected now (Fin v) (Fin level') (Fin threshold)]
                 else []).
Proof.
  unfold anomaly_detection. rewrite detection_body_cases.
  destruct (Rleb overflow_at (deviation ^ 2) || Rleb overflow_at (s ^ 2));
    reflexivity.
Qed.

(** In range the squares are exact. *)
Lemma anomaly_detection_in_range :
  in_range b deviation s ->
  anomaly_detection now value (Fin l) (Fin s) (Fin b) (Fin k)
  = Return ((Fin level',
             Fin (R_sqrt.sqrt (b * deviation ^ 2 + (1 - b) * s ^ 2)),
             Rltb (k * R_sqrt.sqrt (b * deviation ^ 2 + (1 - b) * s ^ 2))
                  (Rabs deviation)),
            if Rltb (k * R_sqrt.sqrt (b * deviation ^ 2 + (1 - b) * s ^ 2))
                    (Rabs deviation)
            then [AnomalyDetected now (Fin v) (Fin level')
                    (Fin (k * R_sqrt.sqrt (b * deviation ^ 2 + (1 - b) * s ^ 2)))]
            else []).
Proof.
  intros Hr. rewrite anomaly_detection_cases.
  destruct (in_range_variance b deviation s Hr) as (Hd & Hs & Hvar).
  rewrite Hd, Hs. cbn [orb].
  unfold flag, threshold, spread'. rewrite Hvar. reflexivity.
Qed.

End FiniteCall.

(** Discharges the side conditions of a concrete call. *)
Ltac solve_in_range :=
  unfold in_range; repeat split; unfold normal;
  first [ left; lra | right; range_lra ].

Ltac side_condition :=
  first [ assumption | reflexivity | lra | solve_in_range
        | apply bad_value_finite_sample; assumption ].

(** A float in range, as the code computes it. *)
Lemma anomaly_detection_finite (now v l s b k : R) :
  0 < b < 1 -> 0 < k -> 0 <= s ->
  in_range b (v - (b * v + (1 - b) * l)) s ->
  anomaly_detection now (PyNum (Fin v)) (Fin l) (Fin s) (Fin b) (Fin k)
  = Return ((Fin (b * v + (1 - b) * l),
             Fin (R_sqrt.sqrt (b * (v - (b * v + (1 - b) * l)) ^ 2 + (1 - b) * s ^ 2)),
             Rltb (k * R_sqrt.sqrt (b * (v - (b * v + (1 - b) * l)) ^ 2
                                    + (1 - b) * s ^ 2))
                  (Rabs (v - (b * v + (1 - b) * l)))),
            if Rltb (k * R_sqrt.sqrt (b * (v - (b * v + (1 - b) * l)) ^ 2
                                      + (1 - b) * s ^ 2))
                    (Rabs (v - (b * v + (1 - b) * l)))
            then [AnomalyDetected now (Fin v) (Fin (b * v + (1 - b) * l))
                    (Fin (k * R_sqrt.sqrt (b * (v - (b * v + (1 - b) * l)) ^ 2
                                           + (1 - b) * s ^ 2)))]
            else []).
Proof.
  intros Hb Hk Hs Hr.
  exact (anomaly_detection_in_range now v l s b k (PyNum (Fin v))
           eq_refl eq_refl Hb Hk Hs Hr).
Qed.


(** The float 2^600 and the integer 2^64 in the state (0, 1), with
    beta = 1/2 and k = 1: the square of the deviation overflows, and
    [np.isnan] rejects the integer. *)
Lemma overflow_call now :
  anomaly_detection now (PyNum (Fin (IZR (2 ^ 600)))) (Fin 0) (Fin 1)
                    (Fin (1 / 2)) (Fin 1)
  = Return ((Fin 0, Fin 1, false), [ErrorInDetection PowOverflowError]).
Proof.
  rewrite (anomaly_detection_cases now (IZR (2 ^ 600)) 0 1 (1 / 2) 1
             (PyNum (Fin (IZR (2 ^ 600))))) by side_condition.
  rewrite (proj2 (Rleb_true overflow_at _)) by range_lra.
  reflexivity.
Qed.

Lemma big_int_call now :
  anomaly_detection now (PyInt (2 ^ 64)) (Fin 0) (Fin 1) (Fin (1 / 2)) (Fin 1)
  = Return ((Fin 0, Fin 1, false),
            [ErrorInDetection (IsnanTypeError (PyInt (2 ^ 64)))]).
Proof. reflexivity. Qed.


(** ** The error path *)

(** Whatever the body raises is caught: the caller gets the arguments
    [ewma] and [ewma_std] back with [False], and the error goes to the
    output. *)
Lemma anomaly_detection_caught now value e0 s0 beta k (e : exn) :
  detection_body now value e0 s0 beta k = Raise e ->
  anomaly_detection now value e0 s0 beta k
  = Return ((e0, s0, false), [ErrorInDetection e]).
Proof. intros H. unfold anomaly_detection. rewrite H. reflexivity. Qed.

Lemma detection_body_raises now value e0 s0 beta k (e : exn) :
  validate_params value e0 s0 beta k = Raise e ->
  detection_body now value e0 s0 beta k = Raise e.
Proof. intros H. unfold detection_body. rewrite H. reflexivity. Qed.

Lemma anomaly_detection_never_raises now value e0 s0 beta k :
  ~ reports_failure (anomaly_detection now value e0 s0 beta k).
Proof.
  intros [e H]. unfold anomaly_detection in H.
  destruct (detection_body now value e0 s0 beta k); discriminate.
Qed.

Lemma non_finite_bad_value (value : pyobj) :
  non_finite value -> bad_value value = Return true.
Proof. intros [-> | [-> | ->]]; reflexivity. Qed.

(** Every invalid call is rejected by the validation, and the first failed
    check decides the kind of the error. *)
Lemma invalid_call_rejected value e0 s0 beta k :
  invalid_call value s0 beta k ->
  exists e, validate_params value e0 s0 beta k = Raise e
            /\ (non_finite value -> kind_of e = InvalidInput)
            /\ (bad_value value = Return false -> kind_of e = InvalidConfig).
Proof.
  intros Hinv. unfold validate_params, bind, raise_if.
  destruct (bad_value value) as [[|] | e1] eqn:Hbad; cbv beta iota.
  { eexists; split; [reflexivity|]. split; [reflexivity|discriminate]. }
  2: { eexists; split; [reflexivity|]. split; [|discriminate].
       intros Hn. apply non_finite_bad_value in Hn. congruence. }
  assert (Hnf : ~ non_finite value).
  { intros Hn. apply non_finite_bad_value in Hn. congruence. }
  destruct (negb (ltb (Fin 0) beta && ltb beta (Fin 1))) eqn:Hbeta; cbv beta iota.
  { eexists; split; [reflexivity|]. split; [tauto|reflexivity]. }
  destruct (leb k (Fin 0)) eqn:Hk; cbv beta iota.
  { eexists; split; [reflexivity|]. split; [tauto|reflexivity]. }
  destruct (ltb s0 (Fin 0)) eqn:Hs; cbv beta iota.
  { eexists; split; [reflexivity|]. split; [tauto|reflexivity]. }
  exfalso. destruct Hinv as [Hn | b -> Hb | c -> Hc | s -> Hlt].
  - tauto.
  - cbn in Hbeta. apply negb_false_iff, andb_true_iff in Hbeta.
    destruct Hbeta as [H0 H1]. apply Rltb_true in H0, H1. tauto.
  - cbn in Hk. apply Rleb_false in Hk. lra.
  - cbn in Hs. apply Rltb_false in Hs. lra.
Qed.

(** C2, as the code has it. When the sample is not finite or the
    configuration is invalid, [validate_params] raises before any
    arithmetic (InvalidInput for the sample, InvalidConfig otherwise), the
    handler of [anomaly_detection] catches the error, writes it to the
    output and returns the unmodified level and spread with isAnomaly =
    False: the caller receives no exception. *)
Theorem invalid_call_is_absorbed now value level spread beta k :
  invalid_call value spread beta k ->
  exists e,
    validate_params value level spread beta k = Raise e
    /\ (non_finite value -> kind_of e = InvalidInput)
    /\ (bad_value value = Return false -> kind_of e = InvalidConfig)
    /\ anomaly_detection now value level spread beta k
       = Return ((level, spread, false), [ErrorInDetection e])
    /\ ~ reports_failure (anomaly_detection now value level spread beta k).
Proof.
  intros Hinv.
  destruct (invalid_call_rejected value level spread beta k Hinv)
    as (e & Hval & Hin & Hcfg).
  exists e. repeat split; try assumption.
  - apply anomaly_detection_caught, detection_body_raises, Hval.
  - apply anomaly_detection_never_raises.
Qed.

(** C2, as stated, fails: the call with sample [nan] in the state (0, 0) is
    invalid, yet nothing is raised, and what the caller receives is the very
    triple that the valid call with sample 0 returns in that state. *)
Lemma invalid_call_not_reported :
  invalid_call (PyNum NaN) (Fin 0) (Fin (3 / 10)) (Fin (15 / 10))
  /\ ~ reports_failure
       (anomaly_detection 0 (PyNum NaN) (Fin 0) (Fin 0) (Fin (3 / 10)) (Fin (15 / 10)))
  /\ returned (anomaly_detection 0 (PyNum NaN) (Fin 0) (Fin 0) (Fin (3 / 10)) (Fin (15 / 10)))
     = Some (Fin 0, Fin 0, false)
  /\ returned (anomaly_detection 0 (PyNum (Fin 0)) (Fin 0) (Fin 0) (Fin (3 / 10)) (Fin (15 / 10)))
     = Some (Fin 0, Fin 0, false).
Proof.
  split; [apply invalid_sample; left; reflexivity|].
  split; [apply anomaly_detection_never_raises|].
  split; [reflexivity|].
  rewrite anomaly_detection_finite by side_condition.
  replace (3 / 10 * 0 + (1 - 3 / 10) * 0) with 0 by lra.
  replace (3 / 10 * (0 - 0) ^ 2 + (1 - 3 / 10) * 0 ^ 2) with 0 by lra.
  rewrite sqrt_0.
  replace (Rabs (0 - 0)) with 0 by (rewrite Rminus_diag, Rabs_R0; reflexivity).
  settle_comparison. reflexivity.
Qed.

(** C10. Whenever the validation fails (sample not a number or not finite,
    beta outside (0,1), multiplier <= 0 or spread < 0), the call raises
    nothing: it returns a triple, which is the prior [ewma] and [ewma_std]
    with [is_anomaly = False], the flag of a normal sample that is not
    anomalous. *)
Theorem validation_failure_returns_prior now value ewma0 ewma_std0 beta k (e : exn) :
  validate_params value ewma0 ewma_std0 beta k = Raise e ->
  ~ reports_failure (anomaly_detection now value ewma0 ewma_std0 beta k)
  /\ returned (anomaly_detection now value ewma0 ewma_std0 beta k)
     = Some (ewma0, ewma_std0, false).
Proof.
  intros Hval. split.
  - apply anomaly_detection_never_raises.
  - rewrite (anomaly_detection_caught now value ewma0 ewma_std0 beta k e).
    + reflexivity.
    + apply detection_body_raises, Hval.
Qed.

(** ** State threading *)

Lemma update_unfold beta k now st value :
  update beta k now st value
  = match anomaly_detection now value (ewma st) (ewma_std st) beta k with
    | Return ((e, s, a), out) => Return (mkState e s, a, out)
    | Raise x => Raise x
    end.
Proof.
  unfold update, bind.
  destruct (anomaly_detection now value (ewma st) (ewma_std st) beta k)
    as [[[[e s] a] out] | x]; reflexivity.
Qed.

Lemma update_non_finite beta k now st value :
  non_finite value ->
  update beta k now st value
  = Return (st, false, [ErrorInDetection (InvalidDataValue value)]).
Proof.
  intros Hn. rewrite update_unfold.
  rewrite (anomaly_detection_caught _ _ _ _ _ _ (InvalidDataValue value)).
  - destruct st; reflexivity.
  - apply detection_body_raises. unfold validate_params.
    rewrite (non_finite_bad_value _ Hn). reflexivity.
Qed.

Lemma update_never_raises beta k now st value :
  ~ reports_failure (update beta k now st value).
Proof.
  intros [e H]. rewrite update_unfold in H.
  pose proof (anomaly_detection_never_raises now value (ewma st) (ewma_std st) beta k)
    as Hnr.
  destruct (anomaly_detection now value (ewma st) (ewma_std st) beta k)
    as [[[[e' s'] a] out] | x]; [discriminate|].
  apply Hnr. exists x. reflexivity.
Qed.

(** C3, as the code has it. A sample that is not finite ([nan], [inf],
    [-inf]) leaves level and spread as they were; the invalid data value
    (InvalidInput) is printed on the output and nothing is reported to the
    caller, to whom the call returns as usual with the flag [False]; the
    stream then goes on as if that call had not been made: the next update,
    and every later one, gives what it gives without it. *)
Theorem non_finite_sample_leaves_state beta k clock frame st value next rest :
  non_finite value ->
  (exists e,
     update beta k (clock frame) st value = Return (st, false, [ErrorInDetection e])
     /\ kind_of e = InvalidInput)
  /\ ~ reports_failure (update beta k (clock frame) st value)
  /\ bind (update beta k (clock frame) st value)
          (fun r => update beta k (clock (S frame)) (fst (fst r)) next)
     = update beta k (clock (S frame)) st next
  /\ run beta k clock frame (value :: rest) st = run beta k clock (S frame) rest st.
Proof.
  intros Hn. pose proof (update_non_finite beta k (clock frame) st value Hn) as Hu.
  split; [|split; [|split]].
  - eexists. split; [exact Hu | reflexivity].
  - apply update_never_raises.
  - rewrite Hu. reflexivity.
  - cbn [run]. rewrite Hu. reflexivity.
Qed.

(** C3, as stated, fails: the update with the sample [nan] in the initial
    state reports nothing to its caller; it returns, with the state it was
    given and the flag [False], and the error is a line of the output. *)
Lemma non_finite_sample_not_reported :
  non_finite (PyNum NaN)
  /\ ~ reports_failure
       (update (Fin (3 / 10)) (Fin (15 / 10)) 0 initial_state (PyNum NaN))
  /\ update (Fin (3 / 10)) (Fin (15 / 10)) 0 initial_state (PyNum NaN)
     = Return (initial_state, false,
               [ErrorInDetection (InvalidDataValue (PyNum NaN))]).
Proof.
  split; [left; reflexivity|].
  split; [apply update_never_raises | reflexivity].
Qed.

(** ** Determinism *)

(** The clock reaches the output only. *)
Lemma detection_body_clock now1 now2 value e0 s0 beta k :
  match detection_body now1 value e0 s0 beta k,
        detection_body now2 value e0 s0 beta k with
  | Return (t1, _), Return (t2, _) => t1 = t2
  | Raise x1, Raise x2 => x1 = x2
  | _, _ => False
  end.
Proof.
  unfold detection_body.
  destruct (validate_params value e0 s0 beta k); cbn [bind]; [|reflexivity].
  destruct (float_pow2 _); cbn [bind]; [|reflexivity].
  destruct (float_pow2 _); cbn [bind]; reflexivity.
Qed.

(** C9. The returned triple is a function of the sample, the prior level
    and spread and the configuration alone: two calls with these arguments
    equal return the same triple, whatever the clock reads at either call;
    nothing else enters the computation. *)
Theorem anomaly_detection_deterministic now1 now2 value level spread beta k :
  returned (anomaly_detection now1 value level spread beta k)
  = returned (anomaly_detection now2 value level spread beta k).
Proof.
  pose proof (detection_body_clock now1 now2 value level spread beta k) as H.
  unfold anomaly_detection.
  destruct (detection_body now1 value level spread beta k) as [[t1 o1] | x1];
    destruct (detection_body now2 value level spread beta k) as [[t2 o2] | x2];
    cbn; try contradiction; congruence.
Qed.

(** The time of the call does appear in what an anomalous call prints. *)
Lemma anomaly_message_carries_time now :
  printed (anomaly_detection now (PyNum (Fin 1)) (Fin 0) (Fin 0) (Fin (1 / 4)) (Fin 1))
  = [AnomalyDetected now (Fin 1) (Fin (1 / 4)) (Fin (3 / 8))].
Proof.
  rewrite anomaly_detection_finite by side_condition.
  replace (1 / 4 * 1 + (1 - 1 / 4) * 0) with (1 / 4) by lra.
  replace (1 / 4 * (1 - 1 / 4) ^ 2 + (1 - 1 / 4) * 0 ^ 2) with ((3 / 8) ^ 2) by lra.
  rewrite sqrt_pow2 by lra.
  replace (1 * (3 / 8)) with (3 / 8) by lra.
  replace (Rabs (1 - 1 / 4)) with (3 / 4) by (rewrite Rabs_pos_eq; lra).
  settle_comparison. reflexivity.
Qed.

(** ** The spread never becomes negative *)

(** A valid call on an accepted sample and a finite state, in or out of
    range: it hands the state back when a square overflows, and otherwise
    returns the new level, the root of the computed variance and the flag
    of the strict comparison. *)
Lemma anomaly_detection_valid now v l s b k value :
  bad_value value = Return false -> num_of value = Fin v ->
  0 < b < 1 -> 0 < k -> 0 <= s ->
  exists (l' s' : R) (a : bool) (out : list message),
    anomaly_detection now value (Fin l) (Fin s) (Fin b) (Fin k)
    = Return ((Fin l', Fin s', a), out)
    /\ 0 <= s'
    /\ ((l' = l /\ s' = s /\ a = false
         /\ out = [ErrorInDetection PowOverflowError]
         /\ (overflow_at <= (v - (b * v + (1 - b) * l)) ^ 2
             \/ overflow_at <= s ^ 2))
        \/ (l' = b * v + (1 - b) * l
            /\ s' = R_sqrt.sqrt (computed_variance b (v - l') s)
            /\ a = Rltb (k * s') (Rabs (v - l'))
            /\ (forall e, ~ In (ErrorInDetection e) out)
            /\ (v - l') ^ 2 < overflow_at /\ s ^ 2 < overflow_at)).
Proof.
  intros Hbad Hnum Hb Hk Hs.
  rewrite (anomaly_detection_cases now v l s b k value) by assumption.
  destruct (Rleb overflow_at ((v - (b * v + (1 - b) * l)) ^ 2)) eqn:Hd;
    [|destruct (Rleb overflow_at (s ^ 2)) eqn:Hs2]; cbn [orb].
  - exists l, s, false. eexists. split; [reflexivity|]. split; [assumption|].
    left. apply Rleb_true in Hd. repeat split. left. exact Hd.
  - exists l, s, false. eexists. split; [reflexivity|]. split; [assumption|].
    left. apply Rleb_true in Hs2. repeat split. right. exact Hs2.
  - do 4 eexists. split; [reflexivity|]. split; [apply sqrt_pos|].
    right. apply Rleb_false in Hd, Hs2.
    split; [reflexivity|]. split; [reflexivity|]. split; [reflexivity|].
    split; [|split; assumption].
    intros e Hin. destruct (Rltb _ _); cbn in Hin.
    + destruct Hin as [Hin | []]. discriminate.
    + contradiction.
Qed.

(** A call either fails its validation or has an accepted sample, which is
    a finite number. *)
Lemma validate_params_cases value e0 s0 beta k :
  (exists e, validate_params value e0 s0 beta k = Raise e)
  \/ (bad_value value = Return false /\ exists v, num_of value = Fin v).
Proof.
  unfold validate_params.
  destruct value as [[v | | | ] | z | ]; cbn [bad_value isnan isinf orb];
    try (left; eexists; reflexivity).
  - right. split; [reflexivity | eexists; reflexivity].
  - destruct (np_fits z).
    + right. split; [reflexivity | eexists; reflexivity].
    + left. eexists. reflexivity.
Qed.

Lemma update_valid now v l s b k value :
  bad_value value = Return false -> num_of value = Fin v ->
  0 < b < 1 -> 0 < k -> 0 <= s ->
  exists (l' s' : R) (a : bool) (out : list message),
    update (Fin b) (Fin k) now (mkState (Fin l) (Fin s)) value
    = Return (mkState (Fin l') (Fin s'), a, out)
    /\ 0 <= s'.
Proof.
  intros Hbad Hnum Hb Hk Hs.
  destruct (anomaly_detection_valid now v l s b k value Hbad Hnum Hb Hk Hs)
    as (l' & s' & a & out & Hcall & Hs' & _).
  exists l', s', a, out. rewrite update_unfold. cbn [ewma ewma_std].
  rewrite Hcall. split; [reflexivity | exact Hs'].
Qed.

(** C4. With a valid configuration and a state whose spread is >= 0, the
    spread returned for a finite sample is >= 0; and whatever the sample is,
    the state that the update leaves satisfies the invariant again. *)
Theorem spread_stays_nonneg now sample level spread beta k (value : pyobj) :
  0 < beta < 1 -> 0 < k -> 0 <= spread ->
  (exists level' spread' isAnomaly,
     returned (anomaly_detection now (PyNum (Fin sample)) (Fin level) (Fin spread)
                                 (Fin beta) (Fin k))
     = Some (Fin level', Fin spread', isAnomaly)
     /\ 0 <= spread')
  /\ (exists st' isAnomaly out,
        update (Fin beta) (Fin k) now (mkState (Fin level) (Fin spread)) value
        = Return (st', isAnomaly, out)
        /\ state_ok st').
Proof.
  intros Hb Hk Hs. split.
  - destruct (anomaly_detection_valid now sample level spread beta k
                (PyNum (Fin sample)) eq_refl eq_refl Hb Hk Hs)
      as (l' & s' & a & out & Hcall & Hs' & _).
    rewrite Hcall. exists l', s', a. split; [reflexivity | exact Hs'].
  - destruct (validate_params_cases value (Fin level) (Fin spread) (Fin beta) (Fin k))
      as [[e He] | [Hbad [v Hnum]]].
    + rewrite update_unfold. cbn [ewma ewma_std].
      rewrite (anomaly_detection_caught _ _ _ _ _ _ e)
        by (apply detection_body_raises, He).
      do 3 eexists. split; [reflexivity|].
      exists level, spread. split; [reflexivity | assumption].
    + destruct (update_valid now v level spread beta k value Hbad Hnum Hb Hk Hs)
        as (l' & s' & a & out & Hu & Hs').
      rewrite Hu. do 3 eexists. split; [reflexivity|].
      exists l', s'. split; [reflexivity | exact Hs'].
Qed.

(** ** The comparison with the threshold *)

(** C5. A sample whose deviation from the new level equals the threshold,
    |sample - level'| = k*spread', is not flagged: the comparison is
    strict.  This holds of the level and the spread that the call returns,
    whatever they are; and when the call is in range they are the level'
    and the spread' of the formulas. *)
Theorem boundary_not_flagged now sample level spread beta k :
  0 < beta < 1 -> 0 < k -> 0 <= spread ->
  (forall (level' spread' : R) (isAnomaly : bool),
     returned (anomaly_detection now (PyNum (Fin sample)) (Fin level) (Fin spread)
                                 (Fin beta) (Fin k))
     = Some (Fin level', Fin spread', isAnomaly) ->
     Rabs (sample - level') = k * spread' ->
     isAnomaly = false)
  /\ (let level' := beta * sample + (1 - beta) * level in
      let spread' :=
        R_sqrt.sqrt (beta * (sample - level') ^ 2 + (1 - beta) * spread ^ 2) in
      in_range beta (sample - level') spread ->
      Rabs (sample - level') = k * spread' ->
      returned (anomaly_detection now (PyNum (Fin sample)) (Fin level) (Fin spread)
                                  (Fin beta) (Fin k))
      = Some (Fin level', Fin spread', false)).
Proof.
  intros Hb Hk Hs. split.
  - intros level' spread' isAnomaly Hret Heq.
    destruct (anomaly_detection_valid now sample level spread beta k
                (PyNum (Fin sample)) eq_refl eq_refl Hb Hk Hs)
      as (l' & s' & a & out & Hcall & _ & Hcase).
    rewrite Hcall in Hret. cbn [returned] in Hret.
    injection Hret as <- <- <-.
    destruct Hcase as [(_ & _ & Ha & _) | (_ & _ & Ha & _)]; [exact Ha|].
    rewrite Ha. apply Rltb_false. lra.
  - intros level' spread' Hr Heq.
    rewrite anomaly_detection_finite by assumption.
    fold level'. fold spread'. rewrite Heq.
    settle_comparison. reflexivity.
Qed.


(** ** The scenario of a spike *)

Lemma sqrt_between (x lo hi : R) :
  0 <= lo -> lo ^ 2 < x -> x < hi ^ 2 -> 0 <= hi ->
  lo < R_sqrt.sqrt x < hi.
Proof.
  intros Hlo Hl Hh Hhi.
  assert (0 <= lo ^ 2) by apply pow2_ge_0.
  split.
  - rewrite <- (sqrt_pow2 lo Hlo). apply sqrt_lt_1; lra.
  - rewrite <- (sqrt_pow2 hi Hhi). apply sqrt_lt_1; lra.
Qed.

Lemma Fin_inj (a b : R) : Fin a = Fin b -> a = b.
Proof. intros H. injection H as H. exact H. Qed.

Lemma sqrt_59_5_bounds :
  77135 / 10000 < R_sqrt.sqrt (595 / 10) < 77145 / 10000.
Proof. apply sqrt_between; cbn [pow]; lra. Qed.

Lemma sqrt_58_9_bounds :
  76745 / 10000 < R_sqrt.sqrt (589 / 10) < 76755 / 10000.
Proof. apply sqrt_between; cbn [pow]; lra. Qed.

(** The call of the scenario, evaluated. *)
Lemma spike_call now :
  anomaly_detection now (PyNum (Fin 20)) (Fin 0) (Fin 1) (Fin (3 / 10)) (Fin (15 / 10))
  = Return ((Fin 6, Fin (R_sqrt.sqrt (595 / 10)), true),
            [AnomalyDetected now (Fin 20) (Fin 6)
                             (Fin (15 / 10 * R_sqrt.sqrt (595 / 10)))]).
Proof.
  pose proof sqrt_59_5_bounds as Hsp.
  rewrite anomaly_detection_finite by side_condition.
  replace (3 / 10 * 20 + (1 - 3 / 10) * 0) with 6 by lra.
  replace (3 / 10 * (20 - 6) ^ 2 + (1 - 3 / 10) * 1 ^ 2) with (595 / 10) by lra.
  replace (Rabs (20 - 6)) with 14 by (rewrite Rabs_pos_eq; lra).
  settle_comparison. reflexivity.
Qed.

(** C7, as the code has it. With beta = 0.3, k = 1.5 and the state
    level = 0, spread = 1, the sample 20 gives level' = 6,
    variance' = 0.3*(20-6)^2 + 0.7*1 = 59.5, spread' = sqrt(59.5), which is
    7.714 to three decimals, a threshold of 11.57 to two decimals, and,
    |20 - 6| = 14 being larger, isAnomaly = True. *)
Theorem scenario_spike now :
  let variance' := 3 / 10 * (20 - 6) ^ 2 + 7 / 10 * 1 ^ 2 in
  let spread' := R_sqrt.sqrt variance' in
  let threshold := 15 / 10 * spread' in
  anomaly_detection now (PyNum (Fin 20)) (Fin 0) (Fin 1) (Fin (3 / 10)) (Fin (15 / 10))
  = Return ((Fin 6, Fin spread', true),
            [AnomalyDetected now (Fin 20) (Fin 6) (Fin threshold)])
  /\ main_update now initial_state (PyNum (Fin 20))
     = Return (mkState (Fin 6) (Fin spread'), true,
               [AnomalyDetected now (Fin 20) (Fin 6) (Fin threshold)])
  /\ variance' = 595 / 10
  /\ 77135 / 10000 < spread' < 77145 / 10000
  /\ 11565 / 1000 < threshold < 11575 / 1000
  /\ Rabs (20 - 6) = 14
  /\ 14 > threshold.
Proof.
  intros variance' spread' threshold.
  assert (Hvar : variance' = 595 / 10) by (unfold variance'; lra).
  pose proof sqrt_59_5_bounds as Hsp.
  unfold threshold, spread'. rewrite Hvar.
  repeat split; try lra.
  - apply spike_call.
  - unfold main_update, initial_state. rewrite update_unfold. cbn [ewma ewma_std].
    rewrite spike_call. reflexivity.
  - rewrite Rabs_pos_eq; lra.
Qed.

(** C7, as stated, fails on its numbers: the variance of that call is not
    58.9, the call does not return sqrt(58.9), and the spread it returns
    lies above 7.71, away from 7.675, with a threshold above 11.56. *)
Lemma scenario_spike_is_not_58_9 :
  3 / 10 * (20 - 6) ^ 2 + 7 / 10 * 1 ^ 2 <> 589 / 10
  /\ returned (anomaly_detection 0 (PyNum (Fin 20)) (Fin 0) (Fin 1)
                                 (Fin (3 / 10)) (Fin (15 / 10)))
     <> Some (Fin 6, Fin (R_sqrt.sqrt (589 / 10)), true)
  /\ exists spread',
       returned (anomaly_detection 0 (PyNum (Fin 20)) (Fin 0) (Fin 1)
                                   (Fin (3 / 10)) (Fin (15 / 10)))
       = Some (Fin 6, Fin spread', true)
       /\ 771 / 100 < spread'
       /\ 1156 / 100 < 15 / 10 * spread'.
Proof.
  pose proof sqrt_59_5_bounds as Hsp.
  pose proof sqrt_58_9_bounds as Hsp'.
  split; [lra|]. split.
  - rewrite spike_call. cbn [returned]. intros H.
    injection H as H. rewrite H in Hsp. lra.
  - eexists. split; [rewrite spike_call; reflexivity|]. lra.
Qed.

(** The first scenario of the specification: the sample 0 in the initial
    state leaves the level at 0, is not flagged, and brings the spread from 1
    down to sqrt(0.7). *)
Lemma scenario_quiet now :
  anomaly_detection now (PyNum (Fin 0)) (Fin 0) (Fin 1) (Fin (3 / 10)) (Fin (15 / 10))
  = Return ((Fin 0, Fin (R_sqrt.sqrt (7 / 10)), false), []).
Proof.
  assert (0 <= R_sqrt.sqrt (7 / 10)) by apply sqrt_pos.
  rewrite anomaly_detection_finite by side_condition.
  replace (3 / 10 * 0 + (1 - 3 / 10) * 0) with 0 by lra.
  replace (3 / 10 * (0 - 0) ^ 2 + (1 - 3 / 10) * 1 ^ 2) with (7 / 10) by lra.
  replace (Rabs (0 - 0)) with 0 by (rewrite Rminus_diag, Rabs_R0; reflexivity).
  settle_comparison. reflexivity.
Qed.


Lemma lt_iff_squares (x y : R) :
  0 <= x -> 0 <= y -> (x < y <-> x ^ 2 < y ^ 2).
Proof.
  intros Hx Hy. split; intros H.
  - nra.
  - destruct (Rlt_dec x y) as [Hlt | Hge]; [exact Hlt | exfalso; nra].
Qed.

(** ** A constant stream *)

Lemma run_app beta k clock frame xs ys st :
  run beta k clock frame (xs ++ ys) st
  = bind (run beta k clock frame xs st)
         (fun st' => run beta k clock (frame + length xs) ys st').
Proof.
  revert frame st. induction xs as [| x xs IH]; intros frame st; cbn [run app length].
  - rewrite Nat.add_0_r. reflexivity.
  - destruct (update beta k (clock frame) st x) as [[[st' a] out] | e]; cbn [bind fst].
    + rewrite IH. replace (S frame + length xs)%nat with (frame + S (length xs))%nat by lia.
      reflexivity.
    + reflexivity.
Qed.

Lemma repeat_snoc {A : Type} (x : A) (n : nat) :
  repeat x (S n) = repeat x n ++ [x].
Proof. induction n as [| n IH]; cbn in *; [reflexivity | rewrite <- IH; reflexivity]. Qed.

Section ConstantStream.

Variables (v l0 s0 b k : R).
Hypothesis beta_valid : 0 < b < 1.
Hypothesis multiplier_valid : 0 < k.
Hypothesis spread_valid : 0 <= s0.
Hypothesis deviation_in_range : ((1 - b) * (v - l0)) ^ 2 < overflow_at.
Hypothesis spread_in_range : s0 ^ 2 < overflow_at.

Local Notation "'lvl'" := (level_after v l0 b).
Local Notation "'var'" := (variance_after v l0 s0 b).
Local Notation "'spr'" := (computed_spread_after v l0 s0 b).

Lemma pow_q_bounds (n : nat) : 0 < (1 - b) ^ n <= 1.
Proof.
  split.
  - apply pow_lt. lra.
  - apply Rle_trans with (1 ^ n); [apply pow_incr; lra | rewrite pow1; lra].
Qed.

Lemma variance_after_nonneg (n : nat) : 0 <= var n.
Proof.
  unfold variance_after. pose proof (pow_q_bounds n) as [Hq0 Hq1].
  assert (0 <= s0 ^ 2) by apply pow2_ge_0.
  assert (0 <= (l0 - v) ^ 2) by apply pow2_ge_0.
  apply Rmult_le_pos; [lra|]. apply Rplus_le_le_0_compat; [assumption|].
  apply Rmult_le_pos; [|assumption]. apply Rmult_le_pos; lra.
Qed.

Lemma variance_after_bound (n : nat) :
  var n <= (1 - b) ^ n * (s0 ^ 2 + (l0 - v) ^ 2).
Proof.
  unfold variance_after. pose proof (pow_q_bounds n) as [Hq0 Hq1].
  assert (0 <= (l0 - v) ^ 2) by apply pow2_ge_0.
  apply Rmult_le_compat_l; [lra|]. apply Rplus_le_compat_l.
  rewrite <- (Rmult_1_l ((l0 - v) ^ 2)) at 2.
  apply Rmult_le_compat_r; [assumption|].
  assert (0 <= 1 - (1 - b) ^ n <= 1) by lra.
  assert (0 <= 1 - b <= 1) by lra.
  nra.
Qed.

Lemma level_after_step (n : nat) :
  b * v + (1 - b) * lvl n = lvl (S n).
Proof. unfold level_after. cbn [pow]. ring. Qed.

Lemma variance_after_step (n : nat) :
  b * (v - lvl (S n)) ^ 2 + (1 - b) * var n = var (S n).
Proof. unfold level_after, variance_after. cbn [pow]. ring. Qed.

Lemma spread_nonneg (n : nat) : 0 <= spr n.
Proof. destruct n; cbn [computed_spread_after]; [assumption | apply sqrt_pos]. Qed.

(** The deviations shrink, so that none of their squares overflows. *)
Lemma deviation_square_bound (n : nat) :
  (v - lvl (S n)) ^ 2 <= ((1 - b) * (v - l0)) ^ 2.
Proof.
  unfold level_after.
  replace (v - (v + (1 - b) ^ S n * (l0 - v)))
    with ((1 - b) ^ n * ((1 - b) * (v - l0))) by (cbn [pow]; ring).
  rewrite Rpow_mult_distr.
  pose proof (pow_q_bounds n) as [Hq0 Hq1].
  assert (0 <= ((1 - b) * (v - l0)) ^ 2) by apply pow2_ge_0.
  assert (((1 - b) ^ n) ^ 2 <= 1) by nra.
  nra.
Qed.

(** The square of the computed spread stays below the variance that exact
    squares would give, and within the range. *)
Lemma spread_square_bounds (n : nat) :
  spr n ^ 2 <= var n /\ spr n ^ 2 < overflow_at.
Proof.
  induction n as [| n [IHv IHo]].
  - split; [|exact spread_in_range].
    unfold variance_after. cbn [computed_spread_after pow]. nra.
  - cbn [computed_spread_after].
    rewrite pow2_sqrt by (apply computed_variance_nonneg; assumption).
    pose proof (computed_variance_le b (v - lvl (S n)) (spr n) beta_valid) as Hle.
    pose proof (deviation_square_bound n) as Hd.
    assert (0 <= (v - lvl (S n)) ^ 2) by apply pow2_ge_0.
    assert (0 <= spr n ^ 2) by apply pow2_ge_0.
    split.
    + rewrite <- variance_after_step. nra.
    + apply Rle_lt_trans with (1 := Hle). nra.
Qed.

(** The state after [n] samples [v]. *)
Lemma run_constant clock frame (n : nat) :
  run (Fin b) (Fin k) clock frame (repeat (PyNum (Fin v)) n)
      (mkState (Fin l0) (Fin s0))
  = Return (mkState (Fin (lvl n)) (Fin (spr n))).
Proof.
  induction n as [| n IH].
  - cbn [repeat run computed_spread_after]. unfold level_after. cbn [pow].
    replace (v + 1 * (l0 - v)) with l0 by ring. reflexivity.
  - rewrite repeat_snoc, run_app, IH. cbn [bind run].
    rewrite update_unfold. cbn [ewma ewma_std].
    destruct (anomaly_detection_valid
                (clock (frame + length (repeat (PyNum (Fin v)) n))%nat)
                v (lvl n) (spr n) b k (PyNum (Fin v)) eq_refl eq_refl
                beta_valid multiplier_valid (spread_nonneg n))
      as (l' & s' & a & out & Hcall & _ & Hcase).
    rewrite Hcall. cbn [bind fst run].
    destruct Hcase as [(_ & _ & _ & _ & Hov) | (-> & -> & _)].
    + exfalso. rewrite level_after_step in Hov.
      pose proof (deviation_square_bound n).
      pose proof (spread_square_bounds n) as [_ Hs].
      destruct Hov; lra.
    + rewrite level_after_step. reflexivity.
Qed.

Lemma level_after_distance (n : nat) :
  Rabs (lvl n - v) = (1 - b) ^ n * Rabs (l0 - v).
Proof.
  unfold level_after.
  replace (v + (1 - b) ^ n * (l0 - v) - v) with ((1 - b) ^ n * (l0 - v)) by ring.
  rewrite Rabs_mult. rewrite (Rabs_pos_eq ((1 - b) ^ n)); [reflexivity|].
  apply Rlt_le, pow_q_bounds.
Qed.

(** The powers of [1 - b] fall below every positive bound. *)
Lemma pow_q_small (c eps : R) :
  0 <= c -> 0 < eps ->
  exists N : nat, forall n : nat, (n >= N)%nat -> (1 - b) ^ n * c < eps.
Proof.
  intros Hc Heps.
  assert (Hc1 : 0 < c + 1) by lra.
  assert (Hy : 0 < eps / (c + 1)) by (apply Rdiv_lt_0_compat; assumption).
  destruct (pow_lt_1_zero (1 - b)) with (y := eps / (c + 1)) as [N HN];
    [rewrite Rabs_pos_eq; lra | assumption |].
  exists N. intros n Hn. specialize (HN n Hn).
  pose proof (pow_q_bounds n) as [Hq0 Hq1].
  rewrite Rabs_pos_eq in HN by lra.
  apply Rle_lt_trans with ((1 - b) ^ n * (c + 1)); [nra|].
  apply Rmult_lt_compat_r with (r := c + 1) in HN; [|assumption].
  replace (eps / (c + 1) * (c + 1)) with eps in HN by (field; lra).
  exact HN.
Qed.

Lemma level_converges : Un_cv lvl v.
Proof.
  intros eps Heps.
  destruct (pow_q_small (Rabs (l0 - v)) eps (Rabs_pos _) Heps) as [N HN].
  exists N. intros n Hn. unfold Rdist. rewrite level_after_distance.
  apply HN, Hn.
Qed.

Lemma spread_converges : Un_cv spr 0.
Proof.
  intros eps Heps.
  assert (Hc : 0 <= s0 ^ 2 + (l0 - v) ^ 2).
  { apply Rplus_le_le_0_compat; apply pow2_ge_0. }
  assert (Heps2 : 0 < eps ^ 2) by (apply pow_lt; assumption).
  destruct (pow_q_small _ _ Hc Heps2) as [N HN].
  exists N. intros n Hn. unfold Rdist. rewrite Rminus_0_r.
  rewrite Rabs_pos_eq by apply spread_nonneg.
  apply (proj2 (lt_iff_squares (spr n) eps (spread_nonneg n) (Rlt_le _ _ Heps))).
  apply Rle_lt_trans with (var n); [apply spread_square_bounds|].
  apply Rle_lt_trans with (2 := HN n Hn). apply variance_after_bound.
Qed.

End ConstantStream.


(** The stream of the float 2^600 from the state (0, 1), with beta = 1/2 and
    k = 1: every call raises in the square and hands the state back. *)
Lemma run_stuck clock (n : nat) :
  forall frame,
    run (Fin (1 / 2)) (Fin 1) clock frame
        (repeat (PyNum (Fin (IZR (2 ^ 600)))) n) (mkState (Fin 0) (Fin 1))
    = Return (mkState (Fin 0) (Fin 1)).
Proof.
  induction n as [| n IH]; intros frame; cbn [repeat run]; [reflexivity|].
  rewrite update_unfold. cbn [ewma ewma_std]. rewrite overflow_call.
  cbn [bind fst]. apply IH.
Qed.


(** ** The theorems at concrete calls *)

Lemma int_20_finite : finite_sample (PyInt 20) 20.
Proof. apply (finite_int 20). lia. Defined.


(** C2 as amended, at a call with beta = 1.5. *)
Lemma invalid_call_is_absorbed_at_beta :
  invalid_call (PyNum (Fin 5)) (Fin 1) (Fin (15 / 10)) (Fin 2)
  /\ exists e,
       validate_params (PyNum (Fin 5)) (Fin 0) (Fin 1) (Fin (15 / 10)) (Fin 2) = Raise e
       /\ (non_finite (PyNum (Fin 5)) -> kind_of e = InvalidInput)
       /\ (bad_value (PyNum (Fin 5)) = Return false -> kind_of e = InvalidConfig)
       /\ anomaly_detection 0 (PyNum (Fin 5)) (Fin 0) (Fin 1) (Fin (15 / 10)) (Fin 2)
          = Return ((Fin 0, Fin 1, false), [ErrorInDetection e])
       /\ ~ reports_failure
            (anomaly_detection 0 (PyNum (Fin 5)) (Fin 0) (Fin 1) (Fin (15 / 10)) (Fin 2)).
Proof.
  assert (H : invalid_call (PyNum (Fin 5)) (Fin 1) (Fin (15 / 10)) (Fin 2)).
  { apply invalid_beta with (b := 15 / 10); [reflexivity | lra]. }
  split; [exact H|].
  exact (invalid_call_is_absorbed 0 (PyNum (Fin 5)) (Fin 0) (Fin 1) (Fin (15 / 10)) (Fin 2) H).
Defined.

(** C3 as amended, at [nan] followed by 5, in the initial state. *)
Lemma non_finite_sample_leaves_state_at_nan :
  non_finite (PyNum NaN)
  /\ (exists e,
        update (Fin (3 / 10)) (Fin (15 / 10)) 0 initial_state (PyNum NaN)
        = Return (initial_state, false, [ErrorInDetection e])
        /\ kind_of e = InvalidInput)
  /\ ~ reports_failure
       (update (Fin (3 / 10)) (Fin (15 / 10)) 0 initial_state (PyNum NaN))
  /\ bind (update (Fin (3 / 10)) (Fin (15 / 10)) 0 initial_state (PyNum NaN))
          (fun r => update (Fin (3 / 10)) (Fin (15 / 10)) 0 (fst (fst r)) (PyNum (Fin 5)))
     = update (Fin (3 / 10)) (Fin (15 / 10)) 0 initial_state (PyNum (Fin 5))
  /\ run (Fin (3 / 10)) (Fin (15 / 10)) (fun _ => 0) 0
         [PyNum NaN; PyNum (Fin 5)] initial_state
     = run (Fin (3 / 10)) (Fin (15 / 10)) (fun _ => 0) 1 [PyNum (Fin 5)] initial_state.
Proof.
  assert (H : non_finite (PyNum NaN)) by (left; reflexivity).
  split; [exact H|].
  exact (non_finite_sample_leaves_state (Fin (3 / 10)) (Fin (15 / 10)) (fun _ => 0) 0%nat
           initial_state (PyNum NaN) (PyNum (Fin 5)) [PyNum (Fin 5)] H).
Defined.

(** C4 at the spike, and at a sample that is not a number. *)
Lemma spread_stays_nonneg_at_spike :
  (0 < 3 / 10 < 1 /\ 0 < 15 / 10 /\ 0 <= 1)
  /\ (exists level' spread' isAnomaly,
        returned (anomaly_detection 0 (PyNum (Fin 20)) (Fin 0) (Fin 1)
                                    (Fin (3 / 10)) (Fin (15 / 10)))
        = Some (Fin level', Fin spread', isAnomaly)
        /\ 0 <= spread')
  /\ (exists st' isAnomaly out,
        update (Fin (3 / 10)) (Fin (15 / 10)) 0 (mkState (Fin 0) (Fin 1)) PyOther
        = Return (st', isAnomaly, out)
        /\ state_ok st').
Proof.
  split; [lra|].
  apply (spread_stays_nonneg 0 20 0 1 (3 / 10) (15 / 10) PyOther); lra.
Defined.

(** C5 at beta = 1/2, k = 1: from level 0 and spread 1 the sample 2 ends at
    level 1 with spread 1, exactly one threshold away. *)
Lemma boundary_not_flagged_at_2 :
  (0 < 1 / 2 < 1 /\ 0 < 1 /\ 0 <= 1)
  /\ in_range (1 / 2) (2 - (1 / 2 * 2 + (1 - 1 / 2) * 0)) 1
  /\ Rabs (2 - (1 / 2 * 2 + (1 - 1 / 2) * 0))
     = 1 * R_sqrt.sqrt (1 / 2 * (2 - (1 / 2 * 2 + (1 - 1 / 2) * 0)) ^ 2
                        + (1 - 1 / 2) * 1 ^ 2)
  /\ returned (anomaly_detection 0 (PyNum (Fin 2)) (Fin 0) (Fin 1) (Fin (1 / 2)) (Fin 1))
     = Some (Fin (1 / 2 * 2 + (1 - 1 / 2) * 0),
             Fin (R_sqrt.sqrt (1 / 2 * (2 - (1 / 2 * 2 + (1 - 1 / 2) * 0)) ^ 2
                               + (1 - 1 / 2) * 1 ^ 2)),
             false).
Proof.
  assert (H : Rabs (2 - (1 / 2 * 2 + (1 - 1 / 2) * 0))
              = 1 * R_sqrt.sqrt (1 / 2 * (2 - (1 / 2 * 2 + (1 - 1 / 2) * 0)) ^ 2
                                 + (1 - 1 / 2) * 1 ^ 2)).
  { replace (1 / 2 * (2 - (1 / 2 * 2 + (1 - 1 / 2) * 0)) ^ 2 + (1 - 1 / 2) * 1 ^ 2)
      with 1 by lra.
    rewrite sqrt_1. rewrite Rabs_pos_eq; lra. }
  assert (Hr : in_range (1 / 2) (2 - (1 / 2 * 2 + (1 - 1 / 2) * 0)) 1)
    by solve_in_range.
  split; [lra|]. split; [exact Hr|]. split; [exact H|].
  apply (proj2 (boundary_not_flagged 0 2 0 1 (1 / 2) 1
                  ltac:(lra) ltac:(lra) ltac:(lra)));
    [exact Hr | exact H].
Defined.



(** C10 at a sample that is not a number. *)
Lemma validation_failure_returns_prior_at_other :
  validate_params PyOther (Fin 0) (Fin 1) (Fin (3 / 10)) (Fin (15 / 10))
  = Raise (InvalidDataValue PyOther)
  /\ ~ reports_failure
       (anomaly_detection 0 PyOther (Fin 0) (Fin 1) (Fin (3 / 10)) (Fin (15 / 10)))
  /\ returned (anomaly_detection 0 PyOther (Fin 0) (Fin 1) (Fin (3 / 10)) (Fin (15 / 10)))
     = Some (Fin 0, Fin 1, false).
Proof.
  split; [reflexivity|].
  apply (validation_failure_returns_prior 0 PyOther (Fin 0) (Fin 1) (Fin (3 / 10))
           (Fin (15 / 10)) (InvalidDataValue PyOther)).
  reflexivity.
Defined.

(** ** More on [validate_params] *)

Lemma multiplier_accepted_iff (k : num) :
  leb k (Fin 0) = false <-> multiplier_accepted k.
Proof.
  destruct k as [c | | |]; cbn; try (split; [intros _; exact I | reflexivity]).
  - apply Rleb_false.
  - split; [discriminate | contradiction].
Qed.

Lemma spread_accepted_iff (s : num) :
  ltb s (Fin 0) = false <-> spread_accepted s.
Proof.
  destruct s as [x | | |]; cbn; try (split; [intros _; exact I | reflexivity]).
  - apply Rltb_false.
  - split; [discriminate | contradiction].
Qed.

Lemma beta_accepted_iff (beta : num) :
  negb (ltb (Fin 0) beta && ltb beta (Fin 1)) = false
  <-> exists b, beta = Fin b /\ 0 < b < 1.
Proof.
  rewrite negb_false_iff, andb_true_iff.
  destruct beta as [b | | |]; cbn.
  - rewrite !Rltb_true. split.
    + intros H. exists b. split; [reflexivity | exact H].
    + intros (b' & Hb & H). injection Hb as <-. exact H.
  - split; [intros [_ H]; discriminate | intros (b & H & _); discriminate].
  - split; [intros [H _]; discriminate | intros (b & H & _); discriminate].
  - split; [intros [H _]; discriminate | intros (b & H & _); discriminate].
Qed.

Lemma np_fits_iff (z : Z) : np_fits z = true <-> (- 2 ^ 63 <= z < 2 ^ 64)%Z.
Proof.
  unfold np_fits. rewrite andb_true_iff, Z.leb_le, Z.ltb_lt. reflexivity.
Qed.

Lemma value_accepted_iff (value : pyobj) :
  bad_value value = Return false <-> sample_accepted value.
Proof.
  destruct value as [[v | | |] | z |]; cbn [bad_value sample_accepted isnan isinf orb];
    try (split; [discriminate | contradiction]).
  - split; [intros _; exact I | reflexivity].
  - rewrite <- np_fits_iff. destruct (np_fits z); split; congruence.
Qed.

Lemma value_rejected_cases (value : pyobj) :
  bad_value value = Return false
  \/ bad_value value = Return true
  \/ (bad_value value = Raise (IsnanTypeError value)
      /\ exists z, value = PyInt z /\ ~ (- 2 ^ 63 <= z < 2 ^ 64)%Z).
Proof.
  destruct value as [[v | | |] | z |]; cbn [bad_value isnan isinf orb]; try tauto.
  destruct (np_fits z) eqn:Hz; [tauto|].
  right. right. split; [reflexivity|]. exists z. split; [reflexivity|].
  rewrite <- np_fits_iff. congruence.
Qed.

Lemma validate_params_accepted value level spread beta k :
  validate_params value level spread beta k = Return tt ->
  sample_accepted value
  /\ (exists b, beta = Fin b /\ 0 < b < 1)
  /\ multiplier_accepted k
  /\ spread_accepted spread.
Proof.
  rewrite <- value_accepted_iff, <- beta_accepted_iff,
          <- multiplier_accepted_iff, <- spread_accepted_iff.
  unfold validate_params, bind, raise_if.
  destruct (bad_value value) as [[|] | e1]; try discriminate.
  destruct (negb (ltb (Fin 0) beta && ltb beta (Fin 1))); [discriminate|].
  destruct (leb k (Fin 0)); [discriminate|].
  destruct (ltb spread (Fin 0)); [discriminate|].
  intros _. repeat split.
Qed.

(** The validation accepts a call exactly when the sample is a finite
    float or an integer from -2^63 up to 2^64 - 1, beta is a finite number
    strictly between 0 and 1, the multiplier is not at most 0 and the spread
    is not below 0.  A multiplier or a spread that is [nan] or [inf] is
    therefore accepted, and the level is not looked at. *)
Theorem validate_params_accepts_iff value level spread beta k :
  validate_params value level spread beta k = Return tt
  <-> sample_accepted value
      /\ (exists b, beta = Fin b /\ 0 < b < 1)
      /\ multiplier_accepted k
      /\ spread_accepted spread.
Proof.
  rewrite <- value_accepted_iff, <- beta_accepted_iff,
          <- multiplier_accepted_iff, <- spread_accepted_iff.
  unfold validate_params, bind, raise_if.
  destruct (bad_value value) as [[|] | e1];
    [ split; [discriminate | intros [H _]; discriminate]
    | | split; [discriminate | intros [H _]; discriminate] ].
  destruct (negb (ltb (Fin 0) beta && ltb beta (Fin 1)));
    [split; [discriminate | intros (_ & H & _); discriminate]|].
  destruct (leb k (Fin 0));
    [split; [discriminate | intros (_ & _ & H & _); discriminate]|].
  destruct (ltb spread (Fin 0));
    [split; [discriminate | intros (_ & _ & _ & H); discriminate]|].
  split; [intros _; repeat split | reflexivity].
Qed.

(** The error that the validation raises names the first check that fails,
    in the order sample, beta, multiplier, spread: every check before it has
    passed, whatever the later arguments are.  The one other exception is
    the [TypeError] of [np.isnan], on an integer that numpy does not
    convert. *)
Theorem validate_params_first_failure value level spread beta k (e : exn) :
  validate_params value level spread beta k = Raise e ->
  (e = InvalidDataValue value /\ bad_value value = Return true)
  \/ (e = InvalidBeta beta
      /\ sample_accepted value
      /\ ~ (exists b, beta = Fin b /\ 0 < b < 1))
  \/ (e = ThresholdNotPositive k
      /\ sample_accepted value
      /\ (exists b, beta = Fin b /\ 0 < b < 1)
      /\ ~ multiplier_accepted k)
  \/ (e = InvalidStd spread
      /\ sample_accepted value
      /\ (exists b, beta = Fin b /\ 0 < b < 1)
      /\ multiplier_accepted k
      /\ ~ spread_accepted spread)
  \/ (e = IsnanTypeError value
      /\ exists z, value = PyInt z /\ ~ (- 2 ^ 63 <= z < 2 ^ 64)%Z).
Proof.
  rewrite <- value_accepted_iff, <- beta_accepted_iff,
          <- multiplier_accepted_iff, <- spread_accepted_iff.
  unfold validate_params, bind, raise_if.
  destruct (value_rejected_cases value) as [Hv | [Hv | [Hv Hz]]]; rewrite Hv.
  2: { intros H; injection H as <-; left; split; reflexivity. }
  2: { intros H; injection H as <-. do 4 right. split; [reflexivity | exact Hz]. }
  destruct (negb (ltb (Fin 0) beta && ltb beta (Fin 1)));
    [intros H; injection H as <-; right; left; repeat split; congruence|].
  destruct (leb k (Fin 0));
    [intros H; injection H as <-; right; right; left; repeat split; congruence|].
  destruct (ltb spread (Fin 0));
    [intros H; injection H as <-; right; right; right; left; repeat split; congruence|].
  discriminate.
Qed.

(** ** When a sample is flagged *)

(** The flag of a valid call on finite arguments, decided on the arguments
    themselves. *)
Lemma flag_criterion (v l s b k : R) :
  0 < b < 1 -> 0 < k -> 0 <= s ->
  let level' := b * v + (1 - b) * l in
  let spread' := R_sqrt.sqrt (b * (v - level') ^ 2 + (1 - b) * s ^ 2) in
  Rltb (k * spread') (Rabs (v - level')) = true
  <-> (1 - b) * (1 - k ^ 2 * b) * (v - l) ^ 2 > k ^ 2 * s ^ 2.
Proof.
  intros Hb Hk Hs level' spread'.
  assert (Hvar : 0 <= b * (v - level') ^ 2 + (1 - b) * s ^ 2)
    by (apply variance_nonneg; assumption).
  assert (Hsp : 0 <= spread') by apply sqrt_pos.
  rewrite Rltb_true.
  rewrite (lt_iff_squares (k * spread') (Rabs (v - level')));
    [| nra | apply Rabs_pos].
  rewrite pow2_abs.
  rewrite Rpow_mult_distr. unfold spread'. rewrite pow2_sqrt by assumption.
  replace (v - level') with ((1 - b) * (v - l)) by (unfold level'; ring).
  set (u := (v - l) ^ 2). set (w := s ^ 2).
  replace (((1 - b) * (v - l)) ^ 2) with ((1 - b) ^ 2 * u) by (unfold u; ring).
  assert (Hid : (1 - b) ^ 2 * u - k ^ 2 * (b * ((1 - b) ^ 2 * u) + (1 - b) * w)
                = (1 - b) * ((1 - b) * (1 - k ^ 2 * b) * u - k ^ 2 * w)) by ring.
  assert (H1b : 0 < 1 - b) by lra.
  split; intros H.
  - assert (0 < (1 - b) * ((1 - b) * (1 - k ^ 2 * b) * u - k ^ 2 * w)) by lra.
    assert (0 < (1 - b) * (1 - k ^ 2 * b) * u - k ^ 2 * w); [|lra].
    apply Rmult_lt_reg_l with (1 - b); [exact H1b | lra].
  - assert (0 < (1 - b) * ((1 - b) * (1 - k ^ 2 * b) * u - k ^ 2 * w));
      [apply Rmult_lt_0_compat; lra | lra].
Qed.



(** With a smaller multiplier the same call returns the same level and
    spread and flags whatever the larger multiplier flags. *)
Theorem lower_multiplier_flags_more now sample level spread beta k k' :
  0 < beta < 1 -> 0 < k' <= k -> 0 <= spread ->
  exists level' spread' isAnomaly isAnomaly',
    returned (anomaly_detection now (PyNum (Fin sample)) (Fin level) (Fin spread)
                                (Fin beta) (Fin k))
    = Some (Fin level', Fin spread', isAnomaly)
    /\ returned (anomaly_detection now (PyNum (Fin sample)) (Fin level) (Fin spread)
                                   (Fin beta) (Fin k'))
       = Some (Fin level', Fin spread', isAnomaly')
    /\ (isAnomaly = true -> isAnomaly' = true).
Proof.
  intros Hb [Hk' Hkk] Hs.
  rewrite (anomaly_detection_cases now sample level spread beta k)
    by side_condition.
  rewrite (anomaly_detection_cases now sample level spread beta k')
    by side_condition.
  destruct (Rleb overflow_at _ || Rleb overflow_at _).
  - exists level, spread, false, false.
    split; [reflexivity|]. split; [reflexivity|]. intros H. exact H.
  - do 4 eexists. split; [reflexivity|]. split; [reflexivity|].
    rewrite !Rltb_true. intros H.
    apply Rle_lt_trans with (2 := H).
    apply Rmult_le_compat_r; [apply sqrt_pos | exact Hkk].
Qed.



(** ** States that are not finite *)

Lemma detection_body_accepted now value level spread beta k :
  validate_params value level spread beta k = Return tt ->
  detection_body now value level spread beta k
  = (let v := num_of value in
     let ewma_new := add (mul beta v) (mul (sub (Fin 1) beta) level) in
     bind (float_pow2 (sub v ewma_new)) (fun deviation2 =>
     bind (float_pow2 spread) (fun ewma_std2 =>
     let variance_new :=
       add (mul beta deviation2) (mul (sub (Fin 1) beta) ewma_std2) in
     let ewma_std_new := Num.sqrt variance_new in
     let threshold := mul k ewma_std_new in
     let is_anomaly := gtb (abs (sub v ewma_new)) threshold in
     Return ((ewma_new, ewma_std_new, is_anomaly),
             if is_anomaly then [AnomalyDetected now v ewma_new threshold] else [])))).
Proof. intros H. unfold detection_body. rewrite H. reflexivity. Qed.

Lemma sample_accepted_number (value : pyobj) :
  sample_accepted value -> exists v, num_of value = Fin v.
Proof.
  destruct value as [[v | | |] | z |]; cbn [sample_accepted]; try contradiction;
    intros _; eexists; reflexivity.
Qed.

(** Evaluates a call whose arithmetic involves [nan] or an infinity, in
    both cases of every square that may overflow. *)
Ltac evaluate_call :=
  cbv zeta; unfold sub, gtb;
  repeat (cbn [add mul neg float_pow2 bind Num.sqrt abs ltb returned fst snd];
          unfold scale_inf;
          first [ settle_comparison
                | match goal with
                  | |- context [Rleb overflow_at ?t] =>
                      destruct (Rleb overflow_at t)
                  end ]);
  cbn [add mul neg float_pow2 bind Num.sqrt abs ltb returned fst snd].

(** A call on a level or a spread that is not finite. *)
Lemma non_finite_call now value level spread beta k :
  num_not_finite level \/ num_not_finite spread ->
  exists level' spread',
    returned (anomaly_detection now value level spread beta k)
    = Some (level', spread', false)
    /\ (num_not_finite level -> level' = level)
    /\ (num_not_finite spread -> num_not_finite spread').
Proof.
  intros Hnf. unfold anomaly_detection.
  destruct (validate_params value level spread beta k) as [[] | e] eqn:Hval.
  2: { rewrite (detection_body_raises _ _ _ _ _ _ e Hval).
       do 2 eexists. split; [reflexivity|]. split; [reflexivity | tauto]. }
  rewrite (detection_body_accepted _ _ _ _ _ _ Hval).
  apply validate_params_accepted in Hval.
  destruct Hval as (Hv & (b & -> & Hb) & Hk & Hs).
  destruct (sample_accepted_number value Hv) as [v Hnum]. rewrite Hnum.
  assert (H1b : 0 < 1 + - b) by lra.
  unfold num_not_finite in *.
  destruct level as [l | | |], spread as [s | | |], k as [c | | |];
    cbn in Hk, Hs; try contradiction;
    try (exfalso; destruct Hnf as [[H | [H | H]] | [H | [H | H]]]; discriminate);
    evaluate_call;
    do 2 eexists; (split; [reflexivity|]);
    (split;
     [ intros H;
       first [ reflexivity | exfalso; destruct H as [H | [H | H]]; discriminate ]
     | intros H;
       first [ exfalso; destruct H as [H | [H | H]]; discriminate | tauto ] ]).
Qed.


(** ** The generated stream *)

Lemma seasonal_bound (t : nat) : -10 <= seasonal t <= 10.
Proof.
  unfold seasonal. pose proof (SIN_bound (2 * PI * INR t / 50)) as [H1 H2]. lra.
Qed.

Lemma INR_50 : INR 50 = 50.
Proof. rewrite INR_IZR_INZ. reflexivity. Qed.

Lemma seasonal_period (t : nat) : seasonal (t + 50) = seasonal t.
Proof.
  unfold seasonal. rewrite plus_INR, INR_50.
  replace (2 * PI * (INR t + 50) / 50)
    with (2 * PI * INR t / 50 + 2 * INR 1 * PI) by (cbn [INR]; field).
  rewrite sin_period. reflexivity.
Qed.

(** A generated value stays within 10 of trend plus noise, unless a spike
    is drawn, which moves it by exactly 20 up or down; a spike is drawn
    exactly when the uniform draw is below 0.05. *)
Theorem stream_value_bounds (t : nat) (d : draws) :
  (5 / 100 <= coin d ->
   Rabs (stream_value t d - (5 / 100 * INR t + noise d)) <= 10)
  /\ (coin d < 5 / 100 ->
      exists quiet,
        Rabs (quiet - (5 / 100 * INR t + noise d)) <= 10
        /\ (stream_value t d = quiet + 20 \/ stream_value t d = quiet - 20))
  /\ Rabs (stream_value t d - (5 / 100 * INR t + noise d)) <= 30.
Proof.
  pose proof (seasonal_bound t) as Hs.
  unfold stream_value, spike, trend.
  repeat split.
  - intros Hc. settle_comparison. apply Rabs_le. lra.
  - intros Hc. settle_comparison. exists (seasonal t + 5 / 100 * INR t + noise d).
    split; [apply Rabs_le; lra|]. destruct (pick_first d); [left | right]; lra.
  - destruct (Rltb (coin d) (5 / 100)); [destruct (pick_first d)|];
      apply Rabs_le; lra.
Qed.

(** With the same draws, the value 50 time steps later is the same value
    raised by the trend of 50 steps, 2.5: the seasonal part has period 50. *)
Theorem stream_value_period (t : nat) (d : draws) :
  stream_value (t + 50) d = stream_value t d + 25 / 10.
Proof.
  unfold stream_value, trend. rewrite seasonal_period, plus_INR, INR_50.
  destruct (Rltb (coin d) (5 / 100)); lra.
Qed.

(** ** Lists, [min] and [max] *)

Lemma py_min_nonempty (l : list num) : l <> [] -> exists m, py_min l = Some m.
Proof. destruct l; [congruence | intros _; eexists; reflexivity]. Qed.

Lemma py_max_nonempty (l : list num) : l <> [] -> exists m, py_max l = Some m.
Proof. destruct l; [congruence | intros _; eexists; reflexivity]. Qed.

(** [if len(l) > 100: l.pop(0)] on a list of at most 101 elements keeps
    the last 100. *)
Lemma pop0_keeps_last {A : Type} (l : list A) :
  (length l <= 101)%nat ->
  (if (100 <? length l)%nat then tl l else l) = skipn (length l - 100) l.
Proof.
  intros Hlen. destruct (100 <? length l)%nat eqn:Hlong.
  - apply Nat.ltb_lt in Hlong.
    replace (length l - 100)%nat with 1%nat by lia.
    destruct l; reflexivity.
  - apply Nat.ltb_ge in Hlong.
    replace (length l - 100)%nat with 0%nat by lia. reflexivity.
Qed.

Lemma skipn_snoc_nonempty {A : Type} (l : list A) (x : A) (n : nat) :
  (n <= length l)%nat -> skipn n (l ++ [x]) <> [].
Proof.
  intros Hn. rewrite skipn_app.
  replace (n - length l)%nat with 0%nat by lia. cbn [skipn].
  intros H. apply app_eq_nil in H. destruct H; discriminate.
Qed.

Lemma length_skipn_window {A : Type} (l : list A) :
  (length (skipn (length l - 100) l) <= 100)%nat.
Proof. rewrite length_skipn. lia. Qed.

Lemma window_shift {A : Type} (l rest : list A) :
  skipn (length (skipn (length l - 100) l ++ rest) - 100)
        (skipn (length l - 100) l ++ rest)
  = skipn (length (l ++ rest) - 100) (l ++ rest).
Proof.
  assert (Happ : skipn (length l - 100) l ++ rest
                 = skipn (length l - 100) (l ++ rest)).
  { rewrite skipn_app. replace (length l - 100 - length l)%nat with 0%nat by lia.
    reflexivity. }
  rewrite Happ, skipn_skipn. f_equal.
  rewrite length_skipn, !length_app. lia.
Qed.

Lemma frames_from_cons (frame : Z) (n : nat) :
  frames_from frame (S n) = frame :: frames_from (frame + 1) n.
Proof.
  unfold frames_from. cbn [seq map]. f_equal.
  - lia.
  - rewrite <- seq_shift, map_map. apply map_ext. intros i. lia.
Qed.

Lemma in_skipn_frames (frame t : Z) (n k : nat) :
  In t (skipn k (frames_from frame n)) ->
  (frame + Z.of_nat k <= t < frame + Z.of_nat n)%Z.
Proof.
  unfold frames_from. rewrite skipn_map, skipn_seq.
  intros H. apply in_map_iff in H. destruct H as (i & <- & Hi).
  apply in_seq in Hi. lia.
Qed.

Lemma last_in_window {A : Type} (l : list A) (x : A) :
  In x (skipn (length (l ++ [x]) - 100) (l ++ [x])).
Proof.
  rewrite skipn_app, length_app. cbn [length].
  replace (length l + 1 - 100 - length l)%nat with 0%nat by lia.
  apply in_or_app. right. left. reflexivity.
Qed.

Lemma fold_min_finite (rest : list num) :
  all_finite rest ->
  forall m0 : R,
    exists m,
      fold_left (fun m y => if ltb y m then y else m) rest (Fin m0) = Fin m
      /\ m <= m0
      /\ (forall x, In (Fin x) rest -> m <= x)
      /\ (m = m0 \/ In (Fin m) rest).
Proof.
  induction 1 as [| y rest [r ->] _ IH]; intros m0.
  - exists m0. cbn. repeat split; [lra | contradiction | left; reflexivity].
  - cbn [fold_left ltb]. destruct (Rltb r m0) eqn:Hlt.
    + apply Rltb_true in Hlt. destruct (IH r) as (m & Hf & Hle & Hall & Hin).
      exists m. split; [exact Hf|]. split; [lra|]. split.
      * intros x [Hx | Hx]; [injection Hx as <-; exact Hle | apply Hall, Hx].
      * right. destruct Hin as [-> | Hin]; [left; reflexivity | right; exact Hin].
    + apply Rltb_false in Hlt. destruct (IH m0) as (m & Hf & Hle & Hall & Hin).
      exists m. split; [exact Hf|]. split; [exact Hle|]. split.
      * intros x [Hx | Hx]; [injection Hx as <-; lra | apply Hall, Hx].
      * destruct Hin as [-> | Hin]; [left; reflexivity | right; right; exact Hin].
Qed.

Lemma fold_max_finite (rest : list num) :
  all_finite rest ->
  forall m0 : R,
    exists m,
      fold_left (fun m y => if gtb y m then y else m) rest (Fin m0) = Fin m
      /\ m0 <= m
      /\ (forall x, In (Fin x) rest -> x <= m)
      /\ (m = m0 \/ In (Fin m) rest).
Proof.
  induction 1 as [| y rest [r ->] _ IH]; intros m0.
  - exists m0. cbn. repeat split; [lra | contradiction | left; reflexivity].
  - cbn [fold_left]. change (gtb (Fin r) (Fin m0)) with (Rltb m0 r).
    destruct (Rltb m0 r) eqn:Hlt.
    + apply Rltb_true in Hlt. destruct (IH r) as (m & Hf & Hle & Hall & Hin).
      exists m. split; [exact Hf|]. split; [lra|]. split.
      * intros x [Hx | Hx]; [injection Hx as <-; exact Hle | apply Hall, Hx].
      * right. destruct Hin as [-> | Hin]; [left; reflexivity | right; exact Hin].
    + apply Rltb_false in Hlt. destruct (IH m0) as (m & Hf & Hle & Hall & Hin).
      exists m. split; [exact Hf|]. split; [exact Hle|]. split.
      * intros x [Hx | Hx]; [injection Hx as <-; lra | apply Hall, Hx].
      * destruct Hin as [-> | Hin]; [left; reflexivity | right; right; exact Hin].
Qed.

(** On finite numbers [min] and [max] give the least and the greatest
    element. *)
Lemma py_min_finite (l : list num) (m : num) :
  all_finite l -> py_min l = Some m ->
  exists lo, m = Fin lo /\ In (Fin lo) l /\ forall x, In (Fin x) l -> lo <= x.
Proof.
  intros Hfin Hmin. destruct l as [| y rest]; [discriminate|].
  inversion Hfin as [| ? ? [r ->] Hrest]; subst.
  cbn [py_min] in Hmin. injection Hmin as <-.
  destruct (fold_min_finite rest Hrest r) as (lo & Hf & Hle & Hall & Hin).
  exists lo. split; [exact Hf|]. split.
  - destruct Hin as [-> | Hin]; [left; reflexivity | right; exact Hin].
  - intros x [Hx | Hx]; [injection Hx as <-; exact Hle | apply Hall, Hx].
Qed.

Lemma py_max_finite (l : list num) (m : num) :
  all_finite l -> py_max l = Some m ->
  exists hi, m = Fin hi /\ In (Fin hi) l /\ forall x, In (Fin x) l -> x <= hi.
Proof.
  intros Hfin Hmax. destruct l as [| y rest]; [discriminate|].
  inversion Hfin as [| ? ? [r ->] Hrest]; subst.
  cbn [py_max] in Hmax. injection Hmax as <-.
  destruct (fold_max_finite rest Hrest r) as (hi & Hf & Hle & Hall & Hin).
  exists hi. split; [exact Hf|]. split.
  - destruct Hin as [-> | Hin]; [left; reflexivity | right; exact Hin].
  - intros x [Hx | Hx]; [injection Hx as <-; exact Hle | apply Hall, Hx].
Qed.

Lemma in_skipn {A : Type} (x : A) (n : nat) (l : list A) :
  In x (skipn n l) -> In x l.
Proof.
  intros H. rewrite <- (firstn_skipn n l). apply in_or_app. right. exact H.
Qed.

Lemma all_finite_skipn (l : list num) (n : nat) :
  all_finite l -> all_finite (skipn n l).
Proof.
  unfold all_finite. rewrite !Forall_forall. intros H x Hx.
  apply H. revert Hx. apply in_skipn.
Qed.

Lemma all_finite_app (l1 l2 : list num) :
  all_finite l1 -> all_finite l2 -> all_finite (l1 ++ l2).
Proof. unfold all_finite. intros H1 H2. apply Forall_app. split; assumption. Qed.

Lemma all_finite_snd_skipn (l : list (Z * num)) (n : nat) :
  all_finite (map snd l) -> all_finite (map snd (skipn n l)).
Proof. rewrite <- skipn_map. apply all_finite_skipn. Qed.


Lemma all_finite_map_Fin (l : list R) : all_finite (map Fin l).
Proof.
  unfold all_finite. apply Forall_forall. intros x Hx.
  apply in_map_iff in Hx. destruct Hx as (r & <- & _). eexists. reflexivity.
Qed.

(** A list that holds [inf] has [inf] or [nan] for its [max], and one that
    holds [-inf] has [-inf] or [nan] for its [min]. *)
Lemma fold_max_inf (l : list num) :
  forall m0,
    (m0 = PInf \/ m0 = NaN) \/ In PInf l ->
    let m := fold_left (fun m y => if gtb y m then y else m) l m0 in
    m = PInf \/ m = NaN.
Proof.
  induction l as [| y l IH]; intros m0 H; cbn [fold_left].
  - destruct H as [H | []]. exact H.
  - apply IH. destruct H as [[-> | ->] | [-> | H]].
    + left. left. destruct y; reflexivity.
    + left. right. destruct y; reflexivity.
    + left. destruct m0; cbn; tauto.
    + right. exact H.
Qed.

Lemma fold_min_inf (l : list num) :
  forall m0,
    (m0 = NInf \/ m0 = NaN) \/ In NInf l ->
    let m := fold_left (fun m y => if ltb y m then y else m) l m0 in
    m = NInf \/ m = NaN.
Proof.
  induction l as [| y l IH]; intros m0 H; cbn [fold_left].
  - destruct H as [H | []]. exact H.
  - apply IH. destruct H as [[-> | ->] | [-> | H]].
    + left. left. destruct y; reflexivity.
    + left. right. destruct y; reflexivity.
    + left. destruct m0; cbn; tauto.
    + right. exact H.
Qed.

Lemma py_max_inf (l : list num) (m : num) :
  In PInf l -> py_max l = Some m -> m = PInf \/ m = NaN.
Proof.
  destruct l as [| x l]; [contradiction|]. cbn [py_max].
  intros Hin Hm. injection Hm as <-. apply fold_max_inf.
  destruct Hin as [-> | Hin]; [left; left; reflexivity | right; exact Hin].
Qed.

Lemma py_min_inf (l : list num) (m : num) :
  In NInf l -> py_min l = Some m -> m = NInf \/ m = NaN.
Proof.
  destruct l as [| x l]; [contradiction|]. cbn [py_min].
  intros Hin Hm. injection Hm as <-. apply fold_min_inf.
  destruct Hin as [-> | Hin]; [left; left; reflexivity | right; exact Hin].
Qed.

(** ** The animation callback *)

Lemma main_update_returns now st value :
  exists st' a out,
    main_update now st value = Return (st', a, out)
    /\ returned (anomaly_detection now value (ewma st) (ewma_std st)
                                   (Fin (3 / 10)) (Fin (15 / 10)))
       = Some (ewma st', ewma_std st', a)
    /\ printed (anomaly_detection now value (ewma st) (ewma_std st)
                                  (Fin (3 / 10)) (Fin (15 / 10))) = out.
Proof.
  unfold main_update. rewrite update_unfold.
  pose proof (anomaly_detection_never_raises now value (ewma st) (ewma_std st)
                (Fin (3 / 10)) (Fin (15 / 10))) as Hnr.
  destruct (anomaly_detection now value (ewma st) (ewma_std st)
              (Fin (3 / 10)) (Fin (15 / 10))) as [[[[e s] a] out] | x].
  - do 3 eexists. repeat split.
  - exfalso. apply Hnr. exists x. reflexivity.
Qed.

(** One call of the callback on a sample, under the length invariant: the
    three lists keep their last 100 elements, and the call returns when
    [ax.set_ylim] accepts the limits. *)
Lemma animation_update_sample now frame value st d st' a out :
  main_update now st (PyNum value) = Return (st', a, out) ->
  display_ok d ->
  exists d' ymin ymax,
    times d' = skipn (length (times d ++ [frame]) - 100) (times d ++ [frame])
    /\ values d' = skipn (length (values d ++ [value]) - 100) (values d ++ [value])
    /\ anomalies d'
       = (if a
          then skipn (length (anomalies d ++ [(frame, value)]) - 100)
                     (anomalies d ++ [(frame, value)])
          else anomalies d)
    /\ py_min (values d' ++ map snd (anomalies d')) = Some ymin
    /\ py_max (values d' ++ map snd (anomalies d')) = Some ymax
    /\ animation_update now frame (Some value) st d
       = if limits_accepted (sub ymin (Fin 5)) (add ymax (Fin 5))
         then Some (mkFrame st' d' (map Detector out)
                      (Some (mkAxes (times d', values d') (anomalies d')
                                    (Z.max 0 (frame - 100), (frame + 10)%Z)
                                    (sub ymin (Fin 5), add ymax (Fin 5)))))
         else None.
Proof.
  intros Hmain (Hlen & Ht & Ha).
  unfold animation_update. rewrite Hmain. cbv zeta.
  assert (Hlt : length (times d ++ [frame]) = length (values d ++ [value]))
    by (rewrite !length_app; cbn; lia).
  assert (Hl1 : (length (times d ++ [frame]) <= 101)%nat)
    by (rewrite length_app; cbn; lia).
  assert (Hl2 : (length (values d ++ [value]) <= 101)%nat) by lia.
  assert (Hl3 : (length (anomalies d ++ [(frame, value)]) <= 101)%nat)
    by (rewrite length_app; cbn; lia).
  pose proof (pop0_keeps_last (times d ++ [frame]) Hl1) as Ht2.
  pose proof (pop0_keeps_last (values d ++ [value]) Hl2) as Hv2.
  rewrite <- Hlt in Hv2 at 1.
  pose proof (pop0_keeps_last (anomalies d ++ [(frame, value)]) Hl3) as Ha2.
  rewrite Ht2, Hv2.
  set (anomalies2 :=
         if a && (100 <? length (if a then anomalies d ++ [(frame, value)]
                                 else anomalies d))%nat
         then tl (if a then anomalies d ++ [(frame, value)] else anomalies d)
         else if a then anomalies d ++ [(frame, value)] else anomalies d).
  assert (Han : anomalies2
                = if a
                  then skipn (length (anomalies d ++ [(frame, value)]) - 100)
                             (anomalies d ++ [(frame, value)])
                  else anomalies d).
  { unfold anomalies2. destruct a; cbn [andb]; [exact Ha2 | reflexivity]. }
  set (values2 := skipn (length (values d ++ [value]) - 100) (values d ++ [value])).
  assert (Hne : values2 ++ map snd anomalies2 <> []).
  { intros H. apply app_eq_nil in H. destruct H as [H _]. revert H.
    apply skipn_snoc_nonempty. rewrite length_app. cbn. lia. }
  destruct (py_min_nonempty _ Hne) as [ymin Hmin].
  destruct (py_max_nonempty _ Hne) as [ymax Hmax].
  rewrite Hmin, Hmax.
  exists (mkDisplay (skipn (length (times d ++ [frame]) - 100) (times d ++ [frame]))
                    values2 anomalies2), ymin, ymax.
  cbn [times values anomalies].
  repeat split; try reflexivity; assumption.
Qed.

Lemma display_ok_after (d d' : display) (frame : Z) (value : num) (a : bool) :
  display_ok d ->
  times d' = skipn (length (times d ++ [frame]) - 100) (times d ++ [frame]) ->
  values d' = skipn (length (values d ++ [value]) - 100) (values d ++ [value]) ->
  anomalies d'
  = (if a
     then skipn (length (anomalies d ++ [(frame, value)]) - 100)
                (anomalies d ++ [(frame, value)])
     else anomalies d) ->
  display_ok d'.
Proof.
  intros (Hlen & Hle & Han) Ht Hv Ha.
  unfold display_ok. rewrite Ht, Hv, Ha. repeat split.
  - rewrite !length_skipn, !length_app. cbn. lia.
  - apply length_skipn_window.
  - destruct a; [apply length_skipn_window | exact Han].
Qed.

Lemma display_finite_after (d d' : display) (frame : Z) (v : R) (a : bool) :
  display_finite d ->
  values d' = skipn (length (values d ++ [Fin v]) - 100) (values d ++ [Fin v]) ->
  anomalies d'
  = (if a
     then skipn (length (anomalies d ++ [(frame, Fin v)]) - 100)
                (anomalies d ++ [(frame, Fin v)])
     else anomalies d) ->
  display_finite d'.
Proof.
  intros [Hvals Hanom] Hv Ha. split.
  - rewrite Hv. apply all_finite_skipn, all_finite_app; [exact Hvals|].
    constructor; [eexists; reflexivity | constructor].
  - rewrite Ha. destruct a; [|exact Hanom].
    apply all_finite_snd_skipn. rewrite map_app. apply all_finite_app; [exact Hanom|].
    constructor; [eexists; reflexivity | constructor].
Qed.

(** One call of the callback on a finite sample, when all that the lists
    hold is finite: [ax.set_ylim] accepts the limits. *)
Lemma animation_update_finite now frame (v : R) st d st' a out :
  main_update now st (PyNum (Fin v)) = Return (st', a, out) ->
  display_ok d -> display_finite d ->
  exists r ax lo hi,
    animation_update now frame (Some (Fin v)) st d = Some r
    /\ new_state r = st'
    /\ console_out r = map Detector out
    /\ drawn r = Some ax
    /\ times (new_display r)
       = skipn (length (times d ++ [frame]) - 100) (times d ++ [frame])
    /\ values (new_display r)
       = skipn (length (values d ++ [Fin v]) - 100) (values d ++ [Fin v])
    /\ anomalies (new_display r)
       = (if a
          then skipn (length (anomalies d ++ [(frame, Fin v)]) - 100)
                     (anomalies d ++ [(frame, Fin v)])
          else anomalies d)
    /\ line_data ax = (times (new_display r), values (new_display r))
    /\ offsets ax = anomalies (new_display r)
    /\ xlim ax = (Z.max 0 (frame - 100), (frame + 10)%Z)
    /\ ylim ax = (Fin (lo - 5), Fin (hi + 5))
    /\ In (Fin lo) (values (new_display r) ++ map snd (anomalies (new_display r)))
    /\ In (Fin hi) (values (new_display r) ++ map snd (anomalies (new_display r)))
    /\ (forall x,
          In (Fin x) (values (new_display r) ++ map snd (anomalies (new_display r))) ->
          lo <= x <= hi)
    /\ display_ok (new_display r)
    /\ display_finite (new_display r).
Proof.
  intros Hm Hok Hfin.
  destruct (animation_update_sample now frame (Fin v) st d st' a out Hm Hok)
    as (d' & ymin & ymax & Ht & Hv & Ha & Hmin & Hmax & Hcall).
  pose proof (display_finite_after d d' frame v a Hfin Hv Ha) as Hfin'.
  pose proof (display_ok_after d d' frame (Fin v) a Hok Ht Hv Ha) as Hok'.
  assert (Hall : all_finite (values d' ++ map snd (anomalies d')))
    by (apply all_finite_app; apply Hfin').
  destruct (py_min_finite _ _ Hall Hmin) as (lo & -> & Hlo_in & Hlo).
  destruct (py_max_finite _ _ Hall Hmax) as (hi & -> & Hhi_in & Hhi).
  cbn [sub neg add limits_accepted] in Hcall.
  eexists. eexists. exists lo, hi. split; [exact Hcall|].
  cbn [new_state new_display console_out drawn line_data offsets xlim ylim].
  repeat split; try reflexivity; try assumption.
  - apply Hlo. assumption.
  - apply Hhi. assumption.
  - apply Hok'.
  - apply Hok'.
  - apply Hok'.
  - apply Hfin'.
  - apply Hfin'.
Qed.

(** A list of finite numbers with [nan] among them, behind a finite first
    element: [min] and [max] never pick the [nan], since every comparison
    with it is false. *)
Lemma fold_min_skips_nan (rest : list num) :
  Forall (fun x => x = NaN \/ exists r, x = Fin r) rest ->
  forall m0 : R,
    exists lo, fold_left (fun m y => if ltb y m then y else m) rest (Fin m0) = Fin lo.
Proof.
  induction 1 as [| y rest Hy _ IH]; intros m0; cbn [fold_left].
  - eexists. reflexivity.
  - destruct Hy as [-> | [r ->]]; cbn [ltb].
    + apply IH.
    + destruct (Rltb r m0); apply IH.
Qed.

Lemma fold_max_skips_nan (rest : list num) :
  Forall (fun x => x = NaN \/ exists r, x = Fin r) rest ->
  forall m0 : R,
    exists hi, fold_left (fun m y => if gtb y m then y else m) rest (Fin m0) = Fin hi.
Proof.
  induction 1 as [| y rest Hy _ IH]; intros m0; cbn [fold_left].
  - eexists. reflexivity.
  - destruct Hy as [-> | [r ->]].
    + change (gtb NaN (Fin m0)) with false. apply IH.
    + change (gtb (Fin r) (Fin m0)) with (Rltb m0 r).
      destruct (Rltb m0 r); apply IH.
Qed.

(** The plotted values after a [nan] has been appended to finite lists that
    were not empty. *)
Lemma window_with_nan (l anoms : list num) (k : nat) :
  all_finite l -> all_finite anoms -> (k < length l)%nat ->
  exists x rest,
    skipn k (l ++ [NaN]) ++ anoms = Fin x :: rest
    /\ Forall (fun y => y = NaN \/ exists r, y = Fin r) rest.
Proof.
  intros Hl Ha Hk. rewrite skipn_app.
  replace (k - length l)%nat with 0%nat by lia. cbn [skipn].
  pose proof (all_finite_skipn l k Hl) as Hsk.
  pose proof (length_skipn k l) as Hlen.
  destruct (skipn k l) as [| y t]; [cbn in Hlen; lia|].
  inversion Hsk as [| y' t' [x ->] Ht]; subst.
  exists x, ((t ++ [NaN]) ++ anoms). split; [reflexivity|].
  apply Forall_app. split; [apply Forall_app; split|].
  - revert Ht. apply Forall_impl. intros a H. right. exact H.
  - constructor; [left; reflexivity | constructor].
  - revert Ha. apply Forall_impl. intros a H. right. exact H.
Qed.

Lemma all_finite_is_map (l : list num) :
  all_finite l -> exists rs : list R, l = map Fin rs.
Proof.
  induction 1 as [| x l [r ->] _ [rs ->]].
  - exists []. reflexivity.
  - exists (r :: rs). reflexivity.
Qed.

(** The callback raises nothing and keeps the book-keeping of the lists,
    when all that the lists hold is finite and the generator yields a finite
    value or has stopped: [times] and [values] of one length, at most 100
    elements in them and in [anomalies], all of them finite.  With lists of
    unequal length [min] could be called on an empty list, and with a value
    that is not finite [ax.set_ylim] could raise. *)
Theorem animation_update_keeps_lengths now frame (next : option R) st d :
  display_ok d -> display_finite d ->
  exists r,
    animation_update now frame (option_map Fin next) st d = Some r
    /\ display_ok (new_display r)
    /\ display_finite (new_display r).
Proof.
  intros Hok Hfin. destruct next as [v |]; cbn [option_map].
  2: { eexists. split; [reflexivity | split; assumption]. }
  destruct (main_update_returns now st (PyNum (Fin v))) as (st' & a & out & Hm & _).
  destruct (animation_update_finite now frame v st d st' a out Hm Hok Hfin)
    as (r & ax & lo & hi & Hr & _ & _ & _ & _ & _ & _ & _ & _ & _ & _ & _ & _ & _
        & Hok' & Hfin').
  exists r. split; [exact Hr|]. split; assumption.
Qed.

(** ** The window of the last 100 samples *)

(** The animation over a list of finite samples, from any frame and any
    finite lists that satisfy the length invariant. *)
Lemma animate_window clock (samples : list R) :
  forall frame st d shown,
    display_ok d -> display_finite d ->
    exists st' d' shown',
      animate clock frame (map Fin samples) st d shown = Some (st', d', shown')
      /\ values d'
         = skipn (length (values d ++ map Fin samples) - 100)
                 (values d ++ map Fin samples)
      /\ times d'
         = skipn (length (times d ++ frames_from frame (length samples)) - 100)
                 (times d ++ frames_from frame (length samples))
      /\ display_ok d'
      /\ display_finite d'
      /\ (samples <> [] ->
          exists ax,
            shown' = Some ax
            /\ line_data ax = (times d', values d')
            /\ xlim ax
               = (Z.max 0 (frame + Z.of_nat (length samples) - 1 - 100),
                  (frame + Z.of_nat (length samples) - 1 + 10)%Z)).
Proof.
  induction samples as [| v rest IH]; intros frame st d shown Hok Hfin.
  - exists st, d, shown. cbn [animate length map]. unfold frames_from. cbn [seq map].
    rewrite !app_nil_r. destruct Hok as (Hlen & Hle & Han).
    replace (length (values d) - 100)%nat with 0%nat by lia.
    replace (length (times d) - 100)%nat with 0%nat by lia.
    repeat split; try assumption; try apply Hfin. congruence.
  - destruct (main_update_returns (clock frame) st (PyNum (Fin v)))
      as (st1 & a & out & Hm & _).
    destruct (animation_update_finite (clock frame) frame v st d st1 a out Hm Hok Hfin)
      as (r & ax & lo & hi & Hr & Hst & _ & Hdr & Ht & Hv & Ha & Hline & _ & Hx
          & _ & _ & _ & _ & Hok1 & Hfin1).
    destruct (IH (frame + 1)%Z (new_state r) (new_display r) (drawn r) Hok1 Hfin1)
      as (st' & d' & shown' & Hrun & Hv' & Ht' & Hok' & Hfin' & Hax).
    exists st', d', shown'. cbn [animate map]. rewrite Hr.
    split; [exact Hrun|].
    split; [|split; [|split; [exact Hok'|split; [exact Hfin'|]]]].
    + rewrite Hv', Hv, window_shift, <- app_assoc. reflexivity.
    + rewrite Ht', Ht, window_shift, <- app_assoc. cbn [length].
      rewrite frames_from_cons. reflexivity.
    + intros _. destruct rest as [| v' rest'].
      * cbn [animate map] in Hrun. injection Hrun as _ <- <-.
        exists ax. split; [exact Hdr|]. split; [exact Hline|].
        rewrite Hx. cbn [length]. f_equal; [f_equal|]; lia.
      * destruct Hax as (ax' & Hs' & Hl' & Hx'); [discriminate|].
        exists ax'. split; [exact Hs'|]. split; [exact Hl'|].
        rewrite Hx'. cbn [length]. f_equal; [f_equal|]; lia.
Qed.

(** Started with empty lists at frame 0, the animation holds after any
    number of finite samples the last 100 of them in [values], with their
    frame numbers in [times]; these are the data of the plotted line, and
    every plotted frame lies within the x range that was set last. *)
Theorem window_holds_last_100 clock (samples : list R) st :
  exists st' d' shown,
    animate clock 0 (map Fin samples) st empty_display None = Some (st', d', shown)
    /\ values d' = skipn (length samples - 100) (map Fin samples)
    /\ times d' = skipn (length samples - 100) (frames_from 0 (length samples))
    /\ (samples <> [] ->
        exists ax,
          shown = Some ax
          /\ line_data ax = (times d', values d')
          /\ forall t, In t (times d') -> (fst (xlim ax) <= t < snd (xlim ax))%Z).
Proof.
  assert (Hok : display_ok empty_display) by (unfold display_ok; cbn; lia).
  assert (Hfin : display_finite empty_display) by (split; constructor).
  destruct (animate_window clock samples 0%Z st empty_display None Hok Hfin)
    as (st' & d' & shown & Hrun & Hv & Ht & _ & _ & Hax).
  cbn [empty_display values times app] in Hv, Ht.
  assert (Hlen : length (frames_from 0 (length samples)) = length samples)
    by (unfold frames_from; rewrite length_map, length_seq; reflexivity).
  rewrite Hlen in Ht. rewrite length_map in Hv.
  exists st', d', shown.
  split; [exact Hrun|]. split; [exact Hv|]. split; [exact Ht|].
  intros Hne. destruct (Hax Hne) as (ax & Hs & Hl & Hx).
  exists ax. split; [exact Hs|]. split; [exact Hl|].
  intros t Hin. rewrite Ht in Hin. apply in_skipn_frames in Hin.
  rewrite Hx. cbn [fst snd]. lia.
Qed.

(** ** The y range *)

(** When the values in the lists and the new sample are finite, the y range
    set by the callback reaches exactly 5 below the least and 5 above the
    greatest of the values it plots on the line and as anomalies, so that
    every plotted value lies strictly inside it. *)
Theorem ylim_encloses_plotted now frame (v : R) st d :
  display_ok d ->
  all_finite (values d) ->
  all_finite (map snd (anomalies d)) ->
  exists r ax lo hi,
    animation_update now frame (Some (Fin v)) st d = Some r
    /\ drawn r = Some ax
    /\ ylim ax = (Fin (lo - 5), Fin (hi + 5))
    /\ In (Fin lo) (values (new_display r) ++ map snd (anomalies (new_display r)))
    /\ In (Fin hi) (values (new_display r) ++ map snd (anomalies (new_display r)))
    /\ forall x,
         In (Fin x) (values (new_display r) ++ map snd (anomalies (new_display r))) ->
         lo <= x <= hi.
Proof.
  intros Hok Hvals Hanom.
  destruct (main_update_returns now st (PyNum (Fin v))) as (st' & a & out & Hm & _).
  destruct (animation_update_finite now frame v st d st' a out Hm Hok
              (conj Hvals Hanom))
    as (r & ax & lo & hi & Hr & _ & _ & Hdr & _ & _ & _ & _ & _ & _
        & Hy & Hlo & Hhi & Hall & _).
  exists r, ax, lo, hi. repeat split; try assumption; apply Hall; assumption.
Qed.

(** ** The stream of [main] in the callback *)

Lemma Rabs_bounds (x y : R) : Rabs x <= y -> - y <= x <= y.
Proof.
  intros H. pose proof (Rle_abs x) as H1. pose proof (Rle_abs (- x)) as H2.
  rewrite Rabs_Ropp in H2. lra.
Qed.

Lemma magnitude_bound_square : 4 * magnitude_bound ^ 2 < overflow_at.
Proof. unfold magnitude_bound. range_lra. Qed.

Lemma magnitude_bound_pos : 0 < magnitude_bound.
Proof. unfold magnitude_bound. literal_powers. lra. Qed.

Lemma state_bounded_ok (st : detector_state) : state_bounded st -> state_ok st.
Proof. intros (l & s & -> & _ & Hs & _). exists l, s. split; [reflexivity | exact Hs]. Qed.

(** One update of [main] on a bounded sample in a bounded state: no square
    overflows, and the state stays bounded. *)
Lemma main_update_bounded now v l s :
  Rabs v <= magnitude_bound -> Rabs l <= magnitude_bound ->
  0 <= s <= 2 * magnitude_bound ->
  exists (l' s' : R) (a : bool) (out : list message),
    main_update now (mkState (Fin l) (Fin s)) (PyNum (Fin v))
    = Return (mkState (Fin l') (Fin s'), a, out)
    /\ Rabs l' <= magnitude_bound
    /\ 0 <= s' <= 2 * magnitude_bound
    /\ forall e, ~ In (ErrorInDetection e) out.
Proof.
  intros Hv Hl [Hs0 Hs1].
  pose proof magnitude_bound_square as Hsq.
  pose proof magnitude_bound_pos as Hpos.
  apply Rabs_bounds in Hv. apply Rabs_bounds in Hl.
  set (M := magnitude_bound) in *.
  assert (Hd : (v - (3 / 10 * v + (1 - 3 / 10) * l)) ^ 2 <= 4 * M ^ 2) by nra.
  assert (Hs2 : s ^ 2 <= 4 * M ^ 2) by nra.
  destruct (anomaly_detection_valid now v l s (3 / 10) (15 / 10) (PyNum (Fin v)))
    as (l' & s' & a & out & Hcall & Hs' & Hcase);
    try reflexivity; try lra.
  exists l', s', a, out. unfold main_update. rewrite update_unfold.
  cbn [ewma ewma_std]. rewrite Hcall. split; [reflexivity|].
  destruct Hcase as [(_ & _ & _ & _ & Hover) | (Hl' & Hs'eq & _ & Hout & _)];
    [exfalso; lra|].
  split; [|split; [split; [exact Hs'|]|exact Hout]].
  - apply Rabs_le. rewrite Hl'. lra.
  - assert (Hvar : computed_variance (3 / 10) (v - l') s <= (2 * M) ^ 2).
    { pose proof (computed_variance_le (3 / 10) (v - l') s) as Hle.
      rewrite Hl' in *. nra. }
    rewrite Hs'eq.
    rewrite <- (sqrt_pow2 (2 * M)) by lra.
    apply sqrt_le_1_alt. exact Hvar.
Qed.

Lemma stream_value_magnitude (t : nat) (d : draws) :
  Rabs (noise d) + 5 / 100 * INR t + 30 <= magnitude_bound ->
  Rabs (stream_value t d) <= magnitude_bound.
Proof.
  intros H. pose proof (seasonal_bound t) as Hs. pose proof (pos_INR t) as Ht.
  assert (Hn : - Rabs (noise d) <= noise d <= Rabs (noise d)).
  { apply Rabs_bounds. lra. }
  unfold stream_value, spike, trend.
  destruct (Rltb (coin d) (5 / 100)); [destruct (pick_first d)|];
    apply Rabs_le; lra.
Qed.

(** Every value of the generator is a finite number, so that in [main] the
    detector never takes its error path, as long as the values, the level
    and the spread stay below 2^500, where no square overflows: from such a
    state and finite lists the callback raises nothing, prints no detection
    error, and leaves such a state and such lists for the next frame. *)
Theorem generated_samples_are_accepted rnd n now frame st d :
  state_bounded st -> display_ok d -> display_finite d ->
  Rabs (stream_value n (rnd n)) <= magnitude_bound ->
  exists r,
    animation_update now frame (Some (data_stream rnd n)) st d = Some r
    /\ state_ok (new_state r)
    /\ state_bounded (new_state r)
    /\ display_ok (new_display r)
    /\ display_finite (new_display r)
    /\ forall e, ~ In (Detector (ErrorInDetection e)) (console_out r).
Proof.
  intros (l & s & -> & Hl & Hs) Hok Hfin Hv. unfold data_stream.
  destruct (main_update_bounded now (stream_value n (rnd n)) l s Hv Hl Hs)
    as (l' & s' & a & out & Hm & Hl' & Hs' & Hout).
  destruct (animation_update_finite now frame (stream_value n (rnd n))
              (mkState (Fin l) (Fin s)) d _ a out Hm Hok Hfin)
    as (r & ax & lo & hi & Hr & Hst & Hcon & _ & _ & _ & _ & _ & _ & _
        & _ & _ & _ & _ & Hok' & Hfin').
  assert (Hb : state_bounded (new_state r)).
  { rewrite Hst. exists l', s'. split; [reflexivity | split; assumption]. }
  exists r. split; [exact Hr|]. split; [apply state_bounded_ok, Hb|].
  split; [exact Hb|]. split; [exact Hok'|]. split; [exact Hfin'|].
  intros e Hin. rewrite Hcon in Hin. apply in_map_iff in Hin.
  destruct Hin as (m & Hm' & Hin). injection Hm' as ->. exact (Hout e Hin).
Qed.

(** ** Samples that are not finite in the callback *)

Lemma limits_rejected_top (bottom top : num) :
  top = PInf \/ top = NaN -> limits_accepted bottom (add top (Fin 5)) = false.
Proof. intros [-> | ->]; destruct bottom; reflexivity. Qed.

Lemma limits_rejected_bottom (bottom top : num) :
  bottom = NInf \/ bottom = NaN ->
  limits_accepted (sub bottom (Fin 5)) top = false.
Proof. intros [-> | ->]; reflexivity. Qed.

(** The detector rejects a sample that is [nan] or infinite and leaves its
    state as it was, but the callback appends the sample to the plotted
    values all the same.  An infinite sample then stops the callback:
    [ax.set_ylim] raises on the limit that is infinite or [nan].  So does a
    [nan] that arrives on empty lists.  A [nan] that arrives on finite lists
    that are not empty is overlooked by [min] and [max]: the callback
    returns, with the state and the anomalies unchanged, the error printed,
    and the [nan] among the plotted values. *)
Theorem rejected_sample_is_still_plotted now frame value st d :
  display_ok d -> num_not_finite value ->
  main_update now st (PyNum value)
  = Return (st, false, [ErrorInDetection (InvalidDataValue (PyNum value))])
  /\ (value = PInf \/ value = NInf ->
      animation_update now frame (Some value) st d = None)
  /\ (value = NaN -> values d = [] -> anomalies d = [] ->
      animation_update now frame (Some value) st d = None)
  /\ (value = NaN -> values d <> [] -> display_finite d ->
      exists r,
        animation_update now frame (Some value) st d = Some r
        /\ new_state r = st
        /\ anomalies (new_display r) = anomalies d
        /\ console_out r
           = [Detector (ErrorInDetection (InvalidDataValue (PyNum value)))]
        /\ In value (values (new_display r))
        /\ In frame (times (new_display r))).
Proof.
  intros Hok Hnf.
  assert (Hn : non_finite (PyNum value)).
  { destruct Hnf as [-> | [-> | ->]]; unfold non_finite; tauto. }
  pose proof (update_non_finite (Fin (3 / 10)) (Fin (15 / 10)) now st _ Hn) as Hm.
  split; [exact Hm|].
  destruct (animation_update_sample now frame value st d st false _ Hm Hok)
    as (d' & ymin & ymax & Ht & Hv & Ha & Hmin & Hmax & Hcall).
  assert (Hin : In value (values d' ++ map snd (anomalies d'))).
  { apply in_or_app. left. rewrite Hv. apply last_in_window. }
  split; [|split].
  - intros [-> | ->]; rewrite Hcall.
    + rewrite limits_rejected_top; [reflexivity|].
      exact (py_max_inf _ _ Hin Hmax).
    + rewrite limits_rejected_bottom; [reflexivity|].
      exact (py_min_inf _ _ Hin Hmin).
  - intros -> Hvals Hanom. rewrite Hcall.
    rewrite Hv, Ha, Hvals, Hanom in Hmin. cbn in Hmin. injection Hmin as <-.
    reflexivity.
  - intros -> Hne Hfin.
    destruct Hok as (Hlen & Hle & Han).
    assert (Hk : (length (values d ++ [NaN]) - 100 < length (values d))%nat).
    { rewrite length_app. cbn [length].
      destruct (values d); [contradiction | cbn [length]; lia]. }
    destruct (window_with_nan (values d) (map snd (anomalies d)) _
                (proj1 Hfin) (proj2 Hfin) Hk)
      as (x & rest & Hshape & Hrest).
    rewrite Hv, Ha, Hshape in Hmin, Hmax. cbn [py_min py_max] in Hmin, Hmax.
    destruct (fold_min_skips_nan rest Hrest x) as [lo Hlo].
    destruct (fold_max_skips_nan rest Hrest x) as [hi Hhi].
    rewrite Hlo in Hmin. rewrite Hhi in Hmax.
    injection Hmin as <-. injection Hmax as <-.
    cbn [sub neg add limits_accepted] in Hcall.
    eexists. split; [exact Hcall|].
    cbn [new_state new_display console_out anomalies values times map].
    split; [reflexivity|]. split; [exact Ha|]. split; [reflexivity|].
    rewrite Hv, Ht. split; apply last_in_window.
Qed.

(** The animation from a state that is not finite, as far as it runs. *)
Lemma animate_silenced clock samples :
  forall frame st d shown st' d' shown',
    num_not_finite (ewma st) \/ num_not_finite (ewma_std st) ->
    display_ok d ->
    animate clock frame samples st d shown = Some (st', d', shown') ->
    anomalies d' = anomalies d
    /\ (num_not_finite (ewma st') \/ num_not_finite (ewma_std st')).
Proof.
  induction samples as [| value rest IH];
    intros frame st d shown st' d' shown' Hnf Hok Hrun; cbn [animate] in Hrun.
  - injection Hrun as <- <- _. split; [reflexivity | exact Hnf].
  - destruct (main_update_returns (clock frame) st (PyNum value))
      as (st1 & a & out & Hm & Hret & _).
    destruct (non_finite_call (clock frame) (PyNum value) (ewma st) (ewma_std st)
                (Fin (3 / 10)) (Fin (15 / 10)) Hnf)
      as (l1 & s1 & Hcall & Hl & Hs).
    rewrite Hret in Hcall. injection Hcall as Hl1 Hs1 ->.
    destruct (animation_update_sample (clock frame) frame value st d st1 false out
                Hm Hok)
      as (d1 & ymin & ymax & Ht & Hv & Ha & _ & _ & Hupd).
    rewrite Hupd in Hrun.
    destruct (limits_accepted (sub ymin (Fin 5)) (add ymax (Fin 5)));
      [|discriminate].
    cbn [new_state new_display drawn] in Hrun.
    apply IH in Hrun.
    + destruct Hrun as [Han Hnf']. split; [congruence | exact Hnf'].
    + rewrite Hl1, Hs1. destruct Hnf as [H | H].
      * left. rewrite (Hl H). exact H.
      * right. exact (Hs H).
    + exact (display_ok_after d d1 frame value false Hok Ht Hv Ha).
Qed.

(** A level or a spread that is [nan] or infinite is never left again and
    silences the detector.  A call on such a state flags nothing, returns
    the level unchanged if that was not finite, and a spread that is not
    finite if that was not; the animation that starts from such a state
    records no anomaly, however long the stream and whatever its samples,
    and it runs to the end of the stream when the samples and the lists are
    finite. *)
Theorem non_finite_state_is_a_trap now value level spread beta k
    clock frame samples d shown :
  num_not_finite level \/ num_not_finite spread ->
  display_ok d ->
  (exists level' spread',
     returned (anomaly_detection now value level spread beta k)
     = Some (level', spread', false)
     /\ (num_not_finite level -> level' = level)
     /\ (num_not_finite spread -> num_not_finite spread'))
  /\ (forall st' d' shown',
        animate clock frame samples (mkState level spread) d shown
        = Some (st', d', shown') ->
        anomalies d' = anomalies d
        /\ (num_not_finite (ewma st') \/ num_not_finite (ewma_std st')))
  /\ (all_finite samples -> display_finite d ->
      exists st' d' shown',
        animate clock frame samples (mkState level spread) d shown
        = Some (st', d', shown')).
Proof.
  intros Hnf Hok. split; [|split].
  - apply non_finite_call. exact Hnf.
  - intros st' d' shown'. apply animate_silenced; assumption.
  - intros Hall Hfin. destruct (all_finite_is_map samples Hall) as [rs ->].
    destruct (animate_window clock rs frame (mkState level spread) d shown Hok Hfin)
      as (st' & d' & shown' & Hrun & _).
    exists st', d', shown'. exact Hrun.
Qed.

(** ** The detector inside the animation *)

Lemma run_returns beta k clock samples :
  forall frame st, exists st', run beta k clock frame samples st = Return st'.
Proof.
  induction samples as [| value rest IH]; intros frame st; cbn [run].
  - exists st. reflexivity.
  - pose proof (update_never_raises beta k (clock frame) st value) as Hnr.
    destruct (update beta k (clock frame) st value) as [[[st1 a] out] | e].
    + cbn [bind fst]. apply IH.
    + exfalso. apply Hnr. exists e. reflexivity.
Qed.

Lemma animate_state clock samples :
  forall (f : nat) st d shown st' d' shown',
    display_ok d ->
    animate clock (Z.of_nat f) samples st d shown = Some (st', d', shown') ->
    run (Fin (3 / 10)) (Fin (15 / 10)) (fun n => clock (Z.of_nat n)) f
        (map PyNum samples) st
    = Return st'.
Proof.
  induction samples as [| value rest IH];
    intros f st d shown st' d' shown' Hok Hrun; cbn [animate] in Hrun.
  - injection Hrun as <- _ _. reflexivity.
  - destruct (main_update_returns (clock (Z.of_nat f)) st (PyNum value))
      as (st1 & a & out & Hm & _).
    destruct (animation_update_sample (clock (Z.of_nat f)) (Z.of_nat f) value
                st d st1 a out Hm Hok)
      as (d1 & ymin & ymax & Ht & Hv & Ha & _ & _ & Hupd).
    rewrite Hupd in Hrun.
    destruct (limits_accepted (sub ymin (Fin 5)) (add ymax (Fin 5)));
      [|discriminate].
    cbn [new_state new_display drawn] in Hrun.
    replace (Z.of_nat f + 1)%Z with (Z.of_nat (S f)) in Hrun by lia.
    apply IH in Hrun;
      [|exact (display_ok_after d d1 (Z.of_nat f) value a Hok Ht Hv Ha)].
    cbn [map run]. unfold main_update in Hm. rewrite Hm. cbn [bind fst].
    exact Hrun.
Qed.

(** The lists kept for the plot do not reach the detector: from lists that
    satisfy the length invariant, the detector state in which the animation
    ends is the state that the bare loop of updates with [beta=0.3] and
    [threshold_multiplier=1.5] reaches on the same samples; and the
    animation does reach the end when the samples and the lists are
    finite. *)
Theorem animation_state_is_run clock samples (f : nat) st d shown :
  display_ok d ->
  exists st',
    run (Fin (3 / 10)) (Fin (15 / 10)) (fun n => clock (Z.of_nat n)) f
        (map PyNum samples) st
    = Return st'
    /\ (forall st'' d' shown',
          animate clock (Z.of_nat f) samples st d shown = Some (st'', d', shown') ->
          st'' = st')
    /\ (all_finite samples -> display_finite d ->
        exists d' shown',
          animate clock (Z.of_nat f) samples st d shown = Some (st', d', shown')).
Proof.
  intros Hok.
  destruct (run_returns (Fin (3 / 10)) (Fin (15 / 10)) (fun n => clock (Z.of_nat n))
              (map PyNum samples) f st) as [st' Hrun].
  exists st'. split; [exact Hrun|]. split.
  - intros st'' d' shown' Hani.
    pose proof (animate_state clock samples f st d shown st'' d' shown' Hok Hani)
      as H.
    congruence.
  - intros Hall Hfin. destruct (all_finite_is_map samples Hall) as [rs Hrs].
    destruct (animate_window clock rs (Z.of_nat f) st d shown Hok Hfin)
      as (st2 & d' & shown' & Hani & _).
    rewrite <- Hrs in Hani.
    pose proof (animate_state clock samples f st d shown st2 d' shown' Hok Hani)
      as H.
    exists d', shown'. rewrite Hani. congruence.
Qed.

(** ** What a call prints *)

Lemma float_pow2_raises (x : num) (e : exn) :
  float_pow2 x = Raise e -> e = PowOverflowError.
Proof.
  destruct x as [a | | |]; cbn [float_pow2]; try discriminate.
  destruct (Rleb overflow_at (a ^ 2)); [congruence | discriminate].
Qed.


(** ** The further theorems at concrete calls *)

Lemma empty_display_ok : display_ok empty_display.
Proof. unfold display_ok. cbn. repeat split; lia. Defined.

Lemma empty_display_finite : display_finite empty_display.
Proof. split; constructor. Defined.

Lemma initial_state_ok : state_ok initial_state.
Proof. exists 0, 1. split; [reflexivity | lra]. Defined.

Lemma initial_state_bounded : state_bounded initial_state.
Proof.
  exists 0, 1. split; [reflexivity|]. rewrite Rabs_R0.
  unfold magnitude_bound. literal_powers. lra.
Defined.

(** A multiplier of 0 together with a negative spread: the multiplier is
    the error. *)
Lemma validate_params_first_failure_at_multiplier :
  validate_params (PyNum (Fin 1)) (Fin 0) (Fin (-1)) (Fin (1 / 2)) (Fin 0)
  = Raise (ThresholdNotPositive (Fin 0))
  /\ ((ThresholdNotPositive (Fin 0) = InvalidDataValue (PyNum (Fin 1))
       /\ bad_value (PyNum (Fin 1)) = Return true)
      \/ (ThresholdNotPositive (Fin 0) = InvalidBeta (Fin (1 / 2))
          /\ sample_accepted (PyNum (Fin 1))
          /\ ~ (exists b, Fin (1 / 2) = Fin b /\ 0 < b < 1))
      \/ (ThresholdNotPositive (Fin 0) = ThresholdNotPositive (Fin 0)
          /\ sample_accepted (PyNum (Fin 1))
          /\ (exists b, Fin (1 / 2) = Fin b /\ 0 < b < 1)
          /\ ~ multiplier_accepted (Fin 0))
      \/ (ThresholdNotPositive (Fin 0) = InvalidStd (Fin (-1))
          /\ sample_accepted (PyNum (Fin 1))
          /\ (exists b, Fin (1 / 2) = Fin b /\ 0 < b < 1)
          /\ multiplier_accepted (Fin 0)
          /\ ~ spread_accepted (Fin (-1)))
      \/ (ThresholdNotPositive (Fin 0) = IsnanTypeError (PyNum (Fin 1))
          /\ exists z, PyNum (Fin 1) = PyInt z /\ ~ (- 2 ^ 63 <= z < 2 ^ 64)%Z)).
Proof.
  assert (H : validate_params (PyNum (Fin 1)) (Fin 0) (Fin (-1)) (Fin (1 / 2)) (Fin 0)
              = Raise (ThresholdNotPositive (Fin 0))).
  { unfold validate_params. repeat (cbn; settle_comparison). reflexivity. }
  split; [exact H|].
  exact (validate_params_first_failure _ _ _ _ _ _ H).
Defined.



(** The sample 2^-600 at level 0 and spread 0, with the default arguments:
    the square of the deviation underflows to 0, the new spread and the
    threshold are 0, and the sample is flagged. *)
Lemma underflow_call now :
  returned (anomaly_detection_default now (PyNum (Fin (/ IZR (2 ^ 600))))
                                      (Fin 0) (Fin 0))
  = Some (Fin (3 / 10 * / IZR (2 ^ 600) + (1 - 3 / 10) * 0), Fin 0, true).
Proof.
  unfold anomaly_detection_default.
  rewrite (anomaly_detection_cases now (/ IZR (2 ^ 600)) 0 0 (3 / 10) 2
             (PyNum (Fin (/ IZR (2 ^ 600))))) by side_condition.
  set (d := / IZR (2 ^ 600) - (3 / 10 * / IZR (2 ^ 600) + (1 - 3 / 10) * 0)).
  assert (Hd : 0 < d) by (unfold d; literal_powers; lra).
  assert (Hd2 : d ^ 2 <= underflow_at) by (unfold d; range_lra).
  pose proof range_order as (Hu0 & Hu1 & Hu2 & Hu3).
  assert (Hcv : computed_variance (3 / 10) d 0 = 0).
  { unfold computed_variance, flush.
    rewrite (proj2 (Rleb_true (d ^ 2) underflow_at) Hd2).
    rewrite (proj2 (Rleb_true (0 ^ 2) underflow_at)) by lra.
    ring. }
  rewrite (proj2 (Rleb_false overflow_at (d ^ 2))) by lra.
  rewrite (proj2 (Rleb_false overflow_at (0 ^ 2))) by lra.
  cbn [orb returned]. rewrite Hcv, sqrt_0.
  rewrite (proj2 (Rltb_true (2 * 0) (Rabs d)))
    by (rewrite Rabs_pos_eq; lra).
  reflexivity.
Qed.


Lemma lower_multiplier_flags_more_at_spike :
  (0 < 3 / 10 < 1 /\ 0 < 15 / 10 <= 2 /\ 0 <= 1)
  /\ exists level' spread' isAnomaly isAnomaly',
       returned (anomaly_detection 0 (PyNum (Fin 20)) (Fin 0) (Fin 1)
                                   (Fin (3 / 10)) (Fin 2))
       = Some (Fin level', Fin spread', isAnomaly)
       /\ returned (anomaly_detection 0 (PyNum (Fin 20)) (Fin 0) (Fin 1)
                                      (Fin (3 / 10)) (Fin (15 / 10)))
          = Some (Fin level', Fin spread', isAnomaly')
       /\ (isAnomaly = true -> isAnomaly' = true).
Proof.
  split; [lra|].
  apply (lower_multiplier_flags_more 0 20 0 1 (3 / 10) 2 (15 / 10)); lra.
Defined.



Lemma non_finite_state_is_a_trap_at_nan :
  (num_not_finite NaN \/ num_not_finite (Fin 1))
  /\ display_ok empty_display
  /\ (exists level' spread',
        returned (anomaly_detection 0 (PyNum (Fin 5)) NaN (Fin 1)
                                    (Fin (3 / 10)) (Fin (15 / 10)))
        = Some (level', spread', false)
        /\ (num_not_finite NaN -> level' = NaN)
        /\ (num_not_finite (Fin 1) -> num_not_finite spread'))
  /\ (forall st' d' shown',
        animate (fun _ => 0) 0 [Fin 5; Fin 60] (mkState NaN (Fin 1))
                empty_display None
        = Some (st', d', shown') ->
        anomalies d' = anomalies empty_display
        /\ (num_not_finite (ewma st') \/ num_not_finite (ewma_std st')))
  /\ (all_finite [Fin 5; Fin 60] -> display_finite empty_display ->
      exists st' d' shown',
        animate (fun _ => 0) 0 [Fin 5; Fin 60] (mkState NaN (Fin 1))
                empty_display None
        = Some (st', d', shown')).
Proof.
  assert (H : num_not_finite NaN \/ num_not_finite (Fin 1))
    by (left; left; reflexivity).
  split; [exact H|]. split; [exact empty_display_ok|].
  exact (non_finite_state_is_a_trap 0 (PyNum (Fin 5)) NaN (Fin 1)
           (Fin (3 / 10)) (Fin (15 / 10)) (fun _ => 0) 0%Z [Fin 5; Fin 60]
           empty_display None H empty_display_ok).
Defined.

Lemma animation_update_keeps_lengths_at_start :
  (display_ok empty_display /\ display_finite empty_display)
  /\ exists r,
       animation_update 0 0 (option_map Fin (Some 5)) initial_state empty_display
       = Some r
       /\ display_ok (new_display r)
       /\ display_finite (new_display r).
Proof.
  split; [split; [exact empty_display_ok | exact empty_display_finite]|].
  exact (animation_update_keeps_lengths 0 0%Z (Some 5) initial_state
           empty_display empty_display_ok empty_display_finite).
Defined.

Lemma ylim_encloses_plotted_at_start :
  (display_ok empty_display
   /\ all_finite (values empty_display)
   /\ all_finite (map snd (anomalies empty_display)))
  /\ exists r ax lo hi,
       animation_update 0 0 (Some (Fin 5)) initial_state empty_display = Some r
       /\ drawn r = Some ax
       /\ ylim ax = (Fin (lo - 5), Fin (hi + 5))
       /\ In (Fin lo) (values (new_display r) ++ map snd (anomalies (new_display r)))
       /\ In (Fin hi) (values (new_display r) ++ map snd (anomalies (new_display r)))
       /\ forall x,
            In (Fin x) (values (new_display r) ++ map snd (anomalies (new_display r))) ->
            lo <= x <= hi.
Proof.
  assert (Hv : all_finite (values empty_display)) by constructor.
  assert (Ha : all_finite (map snd (anomalies empty_display))) by constructor.
  split; [split; [exact empty_display_ok | split; [exact Hv | exact Ha]]|].
  exact (ylim_encloses_plotted 0 0%Z 5 initial_state empty_display
           empty_display_ok Hv Ha).
Defined.

Lemma first_sample_bounded :
  Rabs (stream_value 0 (mkDraws 0 1 true)) <= magnitude_bound.
Proof.
  apply stream_value_magnitude. cbn [noise INR]. rewrite Rabs_R0.
  unfold magnitude_bound. literal_powers. lra.
Defined.

Lemma generated_samples_are_accepted_at_start :
  (state_bounded initial_state /\ display_ok empty_display
   /\ display_finite empty_display
   /\ Rabs (stream_value 0 (mkDraws 0 1 true)) <= magnitude_bound)
  /\ exists r,
       animation_update 0 0 (Some (data_stream (fun _ => mkDraws 0 1 true) 0))
                        initial_state empty_display
       = Some r
       /\ state_ok (new_state r)
       /\ state_bounded (new_state r)
       /\ display_ok (new_display r)
       /\ display_finite (new_display r)
       /\ forall e, ~ In (Detector (ErrorInDetection e)) (console_out r).
Proof.
  split; [split; [exact initial_state_bounded
                 | split; [exact empty_display_ok
                          | split; [exact empty_display_finite
                                   | exact first_sample_bounded]]]|].
  exact (generated_samples_are_accepted (fun _ => mkDraws 0 1 true) 0%nat 0 0%Z
           initial_state empty_display initial_state_bounded empty_display_ok
           empty_display_finite first_sample_bounded).
Defined.

Lemma rejected_sample_is_still_plotted_at_inf :
  (display_ok empty_display /\ num_not_finite PInf)
  /\ main_update 0 initial_state (PyNum PInf)
     = Return (initial_state, false,
               [ErrorInDetection (InvalidDataValue (PyNum PInf))])
  /\ (PInf = PInf \/ PInf = NInf ->
      animation_update 0 0 (Some PInf) initial_state empty_display = None)
  /\ (PInf = NaN -> values empty_display = [] -> anomalies empty_display = [] ->
      animation_update 0 0 (Some PInf) initial_state empty_display = None)
  /\ (PInf = NaN -> values empty_display <> [] -> display_finite empty_display ->
      exists r,
        animation_update 0 0 (Some PInf) initial_state empty_display = Some r
        /\ new_state r = initial_state
        /\ anomalies (new_display r) = anomalies empty_display
        /\ console_out r
           = [Detector (ErrorInDetection (InvalidDataValue (PyNum PInf)))]
        /\ In PInf (values (new_display r))
        /\ In 0%Z (times (new_display r))).
Proof.
  assert (H : num_not_finite PInf) by (right; left; reflexivity).
  split; [split; [exact empty_display_ok | exact H]|].
  exact (rejected_sample_is_still_plotted 0 0%Z PInf initial_state empty_display
           empty_display_ok H).
Defined.

Lemma animation_state_is_run_at_start :
  display_ok empty_display
  /\ exists st',
       run (Fin (3 / 10)) (Fin (15 / 10)) (fun n => (fun _ => 0) (Z.of_nat n)) 0
           (map PyNum [Fin 5; Fin 60]) initial_state
       = Return st'
       /\ (forall st'' d' shown',
             animate (fun _ => 0) (Z.of_nat 0) [Fin 5; Fin 60] initial_state
                     empty_display None
             = Some (st'', d', shown') ->
             st'' = st')
       /\ (all_finite [Fin 5; Fin 60] -> display_finite empty_display ->
           exists d' shown',
             animate (fun _ => 0) (Z.of_nat 0) [Fin 5; Fin 60] initial_state
                     empty_display None
             = Some (st', d', shown')).
Proof.
  split; [exact empty_display_ok|].
  exact (animation_state_is_run (fun _ => 0) [Fin 5; Fin 60] 0%nat initial_state
           empty_display None empty_display_ok).
Defined.
